(** * utils/antlr_grammar_gen.py: the ANTLR grammar generation helper

    A shallow embedding of [antlr_grammar_gen.py] and the properties of
    its four entry points: [build_swift_gen_transformer],
    [transform_source], [generate_antlr_grammar] and
    [validate_antlr_version].

    Python [str] values are modelled by [string]; a character is a code
    point below 256.  On that range the Unicode-aware classes of the [re]
    module are: [\d] = the ten ASCII digits, and [\s] = TAB, LF, VT, FF,
    CR, FS, GS, RS, US, SPACE, NEL (0x85) and NBSP (0xA0). *)

From Stdlib Require Import ZArith Ascii String.
From stdpp Require Import base option list strings gmap.

Local Open Scope string_scope.
Local Open Scope list_scope.

(** ** The fragment of [re] used by the script *)

Module Re.

(** Pattern syntax: the constructs that occur in
    [ANTLR Parser Generator\s+Version\s+((?:\d+\.)+\d+)].
    A non-capturing group [(?:r)] is [r] itself. *)
Inductive regex : Type :=
| Eps
| Chr (c : ascii)
| Cls (p : ascii -> bool)
| Cat (r1 r2 : regex)
| Plus (r : regex)
| Grp (i : nat) (r : regex).

(** A literal run of characters. *)
Fixpoint lit (cs : list ascii) : regex :=
  match cs with
  | [] => Eps
  | c :: cs' => Cat (Chr c) (lit cs')
  end.

Definition code (c : ascii) : N := N_of_ascii c.

(** [\d] *)
Definition is_digit (c : ascii) : bool :=
  ((48 <=? code c) && (code c <=? 57))%N.

(** [\s] *)
Definition is_space (c : ascii) : bool :=
  (((9 <=? code c) && (code c <=? 13))
   || ((28 <=? code c) && (code c <=? 32))
   || (code c =? 133) || (code c =? 160))%N.

(** Captured groups, most recent first. *)
Definition captures : Type := list (nat * list ascii).

Fixpoint group (i : nat) (caps : captures) : option (list ascii) :=
  match caps with
  | [] => None
  | (j, txt) :: caps' => if Nat.eqb i j then Some txt else group i caps'
  end.

(** A state of the backtracking search: the groups captured so far and
    the text still to be consumed. *)
Definition thread : Type := (captures * list ascii)%type.

(** All the ways [r] matches at the start of [s], in the order in which
    the backtracking engine tries them: a greedy [+] tries one more
    iteration before it gives the text back.  An iteration that
    consumes nothing is not repeated.  [fuel] bounds the iterations of
    [+]; the length of the text is always enough ([backtrack_fuel]). *)
Fixpoint backtrack (fuel : nat) : regex -> list ascii -> captures -> list thread :=
  fix go (r : regex) (s : list ascii) (caps : captures) : list thread :=
    match r with
    | Eps => [(caps, s)]
    | Chr c =>
        match s with
        | c' :: t => if Ascii.eqb c c' then [(caps, t)] else []
        | [] => []
        end
    | Cls p =>
        match s with
        | c' :: t => if p c' then [(caps, t)] else []
        | [] => []
        end
    | Cat r1 r2 =>
        flat_map (fun th : thread => go r2 (snd th) (fst th)) (go r1 s caps)
    | Plus r' =>
        flat_map
          (fun th : thread =>
             match fuel with
             | S n =>
                 if (length (snd th) <? length s)%nat
                 then backtrack n (Plus r') (snd th) (fst th)
                 else []
             | O => []
             end ++ [th])
          (go r' s caps)
    | Grp i r' =>
        map (fun th : thread =>
               ((i, take (length s - length (snd th)) s) :: fst th, snd th))
            (go r' s caps)
    end.

(** [Pattern.match(s)]: the first successful thread of a search
    anchored at the start of [s]; the match object is represented by
    its captured groups. *)
Definition re_match (r : regex) (s : list ascii) : option captures :=
  match backtrack (length s) r s [] with
  | [] => None
  | th :: _ => Some (fst th)
  end.

(** The language of a pattern. *)
Inductive lang : regex -> list ascii -> Prop :=
| lang_eps : lang Eps []
| lang_chr c : lang (Chr c) [c]
| lang_cls (p : ascii -> bool) c : p c = true -> lang (Cls p) [c]
| lang_cat r1 r2 u v : lang r1 u -> lang r2 v -> lang (Cat r1 r2) (u ++ v)
| lang_plus_one r u : lang r u -> lang (Plus r) u
| lang_plus_more r u v : lang r u -> lang (Plus r) v -> lang (Plus r) (u ++ v)
| lang_grp i r u : lang r u -> lang (Grp i r) u.

(** [s] begins with a text of the language of [r]. *)
Definition matches_at_start (r : regex) (s : list ascii) : Prop :=
  exists p rest, s = p ++ rest /\ lang r p.

End Re.

(** ** Paths, the file system and external processes *)

(** A [pathlib.Path], represented by its [str()] form. *)
Abbreviation Path := string (only parsing).

(** What the script observes of a directory entry: whether [is_file()]
    holds for it (a regular file), its content, and whether the
    operating system lets this process remove it (write access to the
    directory, sticky bit, read-only file system, ...): in a directory
    the process may not write, no entry is [unlinkable]. *)
Record entry : Type :=
  { regular : bool; content : string; unlinkable : bool }.

(** A directory: its entries in the order in which the operating system
    enumerates them.  Names are unique in a directory ([wf_dir]). *)
Abbreviation directory := (list (string * entry)) (only parsing).

Abbreviation filesystem := (gmap string (list (string * entry))) (only parsing).

Definition names (d : directory) : list string := map fst d.

Definition wf_dir (d : directory) : Prop := List.NoDup (names d).

Fixpoint dir_lookup (d : directory) (name : string) : option entry :=
  match d with
  | [] => None
  | (n, e) :: d' => if String.eqb n name then Some e else dir_lookup d' name
  end.

Definition dir_remove (d : directory) (name : string) : directory :=
  List.filter (fun ne => negb (String.eqb (fst ne) name)) d.

(** [dir / name] of pathlib (POSIX flavour), for the name of a directory
    entry.  The [str()] form of a path ends with a slash only when the
    path is one of the two roots, [/] and [//]. *)
Definition child (dir : Path) (name : string) : Path :=
  if String.eqb dir "." then name
  else if String.eqb dir "/" || String.eqb dir "//" then dir ++ name
  else dir ++ "/" ++ name.

(** A spawned process: program, arguments, and the working directory
    when the caller pins one. *)
Record invocation : Type :=
  { inv_cmd : string; inv_args : list string; inv_cwd : option Path }.

Inductive event : Type :=
| Printed (line : string)
| Spawned (inv : invocation)
| Unlinked (dir : Path) (name : string).

Record World : Type :=
  { trace : list event;      (* what the process did so far, oldest first *)
    fs : filesystem;
    cwd : Path }.

Definition emit (e : event) (w : World) : World :=
  {| trace := trace w ++ [e]; fs := fs w; cwd := cwd w |}.

Definition set_fs (f : filesystem) (w : World) : World :=
  {| trace := trace w; fs := f; cwd := cwd w |}.

(** The lines written to standard output, oldest first. *)
Fixpoint printed (t : list event) : list string :=
  match t with
  | [] => []
  | Printed l :: t' => l :: printed t'
  | _ :: t' => printed t'
  end.

(** The processes spawned, oldest first. *)
Fixpoint spawned (t : list event) : list invocation :=
  match t with
  | [] => []
  | Spawned i :: t' => i :: spawned t'
  | _ :: t' => spawned t'
  end.

Inductive error : Type :=
| ProcessFailed (inv : invocation)
| FileNotFoundError (p : Path)
| PermissionError (p : Path)
| AttributeError.

(** How a call ends: it returns, the interpreter exits with a status
    ([exit(n)]), or an exception propagates. *)
Inductive result (A : Type) : Type :=
| Returned (a : A)
| Exited (status : Z)
| Raised (e : error).
Arguments Returned {A} a.
Arguments Exited {A} status.
Arguments Raised {A} e.

Definition Py (A : Type) : Type := World -> World * result A.

Definition ret {A : Type} (a : A) : Py A := fun w => (w, Returned a).

Definition bind {A B : Type} (k : A -> Py B) (m : Py A) : Py B :=
  fun w =>
    match m w with
    | (w', Returned a) => k a w'
    | (w', Exited n) => (w', Exited n)
    | (w', Raised e) => (w', Raised e)
    end.

#[global] Instance Py_ret : MRet Py := @ret.
#[global] Instance Py_bind : MBind Py := @bind.

Definition print (line : string) : Py unit :=
  fun w => (emit (Printed line) w, Returned tt).

Definition exit (status : Z) : Py unit := fun w => (w, Exited status).

Definition raise {A : Type} (e : error) : Py A := fun w => (w, Raised e).

Definition Path_cwd : Py Path := fun w => (w, Returned (cwd w)).

(** [for x in l: body(x)] *)
Fixpoint for_each {A : Type} (l : list A) (body : A -> Py unit) : Py unit :=
  match l with
  | [] => ret tt
  | x :: l' => body x;; for_each l' body
  end.

(** *** fnmatch *)

Inductive glob_tok : Type := Star | Any | Lit (c : ascii).

Definition glob_tok_of (c : ascii) : glob_tok :=
  if Ascii.eqb c "*" then Star else if Ascii.eqb c "?" then Any else Lit c.

(** Case-sensitive wildcard matching of a whole name (POSIX flavour);
    bracket expressions do not occur in the script's patterns. *)
Fixpoint fnmatch_toks (p : list glob_tok) (s : list ascii) : bool :=
  match p with
  | [] => match s with [] => true | _ => false end
  | Lit c :: p' =>
      match s with
      | c' :: s' => Ascii.eqb c c' && fnmatch_toks p' s'
      | [] => false
      end
  | Any :: p' =>
      match s with
      | _ :: s' => fnmatch_toks p' s'
      | [] => false
      end
  | Star :: p' =>
      (fix star (s : list ascii) : bool :=
         fnmatch_toks p' s
         || match s with
            | [] => false
            | _ :: s' => star s'
            end) s
  end.

Definition fnmatch (name pat : string) : bool :=
  fnmatch_toks (map glob_tok_of (list_ascii_of_string pat))
               (list_ascii_of_string name).

(** [dir.glob(pat)] for a pattern without a directory part: the names
    of [dir] matching [pat], from one enumeration of the directory; no
    name when [dir] is not a directory. *)
Definition glob (dir : Path) (pat : string) : Py (list string) :=
  fun w =>
    (w, Returned (List.filter (fun n => fnmatch n pat)
                              (names (default [] (fs w !! dir))))).

(** [(dir / name).is_file()] *)
Definition is_file (dir : Path) (name : string) : Py bool :=
  fun w =>
    (w, Returned
          match fs w !! dir with
          | Some d =>
              match dir_lookup d name with
              | Some e => regular e
              | None => false
              end
          | None => false
          end).

(** [(dir / name).unlink()]: the entry is removed when the operating
    system allows it; otherwise the call raises and the file stays. *)
Definition unlink (dir : Path) (name : string) : Py unit :=
  fun w =>
    match fs w !! dir with
    | Some d =>
        match dir_lookup d name with
        | Some e =>
            if unlinkable e then
              (emit (Unlinked dir name)
                    (set_fs (<[dir := dir_remove d name]> (fs w)) w),
               Returned tt)
            else (w, Raised (PermissionError (child dir name)))
        | None => (w, Raised (FileNotFoundError (child dir name)))
        end
    | None => (w, Raised (FileNotFoundError (child dir name)))
    end.

(** ** The script *)

Section Script.

(** [generator_paths.grammars_package_path] and
    [generator_paths.make_relative]: the two path helpers the script
    imports. *)
Variable grammars_package_path : string -> Path.
Variable make_relative : Path -> Path -> Path.

(** The programs installed on the machine: what a process prints and how
    it leaves the file system, or [None] when it fails. *)
Variable exec : invocation -> filesystem -> option (string * filesystem).

(** Modelled from the spec: [process.run] and [process.run_output] are
    imported from a module that is not part of this file.  Each spawns
    one process and waits for it; a failure of the process is fatal for
    the caller; [run_output] hands the captured output back. *)
Definition run_output (cmd : string) (args : list string)
    (dir : option Path) : Py string :=
  fun w =>
    let inv := {| inv_cmd := cmd; inv_args := args; inv_cwd := dir |} in
    let w' := emit (Spawned inv) w in
    match exec inv (fs w) with
    | Some (out, fs') => (set_fs fs' w', Returned out)
    | None => (w', Raised (ProcessFailed inv))
    end.

(** Modelled from the spec: [process.run], the same without the
    output. *)
Definition run (cmd : string) (args : list string)
    (dir : option Path) : Py unit :=
  run_output cmd args dir;; mret tt.

(** Minimum required ANTLR version (major.minor) *)
Definition antlr_req : string := "4.11".

Definition swift_build_args : list string := ["-c=release"].

Definition call_swift (args : list string) : Py unit :=
  run "swift" args (Some (grammars_package_path ".")).

Definition build_swift_gen_transformer : Py unit :=
  call_swift ("build" :: swift_build_args).

Definition transform_source (swift_files : list Path) : Py unit :=
  print "Transforming source files...";;
  call_swift ("run" :: swift_build_args
                ++ "--skip-build" :: "AntlrGrammars" :: swift_files).

(** The body of a cleanup loop:
    [if file.is_file(): file.unlink(); print(f"Removed ...")] *)
Definition remove_if_file (cwd : Path) (output_path : Path)
    (name : string) : Py unit :=
  b ← is_file output_path name;
  if b : bool then
    unlink output_path name;;
    print ("Removed " ++ make_relative cwd (child output_path name))
  else mret tt.

(** One cleanup pass: [for file in output_path.glob(pat): ...] *)
Definition remove_matching (cwd : Path) (output_path : Path)
    (pat : string) : Py unit :=
  found ← glob output_path pat;
  for_each found (remove_if_file cwd output_path).

Definition generate_antlr_grammar (output_path : Path) (files : list Path)
    (antlr_v : option string) : Py unit :=
  cwd ← Path_cwd;
  let normalized_paths := map (fun path => make_relative cwd path) files in
  let rel_output_path := make_relative cwd output_path in
  print ("Generating Antlr grammar files to " ++ rel_output_path ++ "...");;
  let args :=
    ["-Dlanguage=Swift"; "-visitor"]
      ++ normalized_paths
      ++ ["-o"; rel_output_path; "-Xexact-output-dir"] in
  let args :=
    match antlr_v with
    | Some v => ["-v"; v] ++ args
    | None => args
    end in
  run "antlr4" args None;;
  (* Remove extraneous .token and .interp files *)
  print ("Removing extraneous generated files in " ++ rel_output_path ++ "...");;
  remove_matching cwd output_path "*.interp";;
  remove_matching cwd output_path "*.tokens".

(** [re.compile(r"ANTLR Parser Generator\s+Version\s+((?:\d+\.)+\d+)")] *)
Definition antlr_version_pattern : Re.regex :=
  Re.Cat (Re.lit (list_ascii_of_string "ANTLR Parser Generator"))
  (Re.Cat (Re.Plus (Re.Cls Re.is_space))
  (Re.Cat (Re.lit (list_ascii_of_string "Version"))
  (Re.Cat (Re.Plus (Re.Cls Re.is_space))
          (Re.Grp 1
             (Re.Cat (Re.Plus (Re.Cat (Re.Plus (Re.Cls Re.is_digit))
                                      (Re.Chr ".")))
                     (Re.Plus (Re.Cls Re.is_digit))))))).

Definition not_found_message : string :=
  "Antlr4 not found! Please install Antlr4 before proceeding: https://antlr.org".

Definition mismatch_message (antlr_version : string) : string :=
  "Expected Antlr version " ++ antlr_req ++ ".*, but found "
    ++ antlr_version ++ "!".

(** The part of [validate_antlr_version] after the probe: what it does
    with the text the generator printed. *)
Definition check_antlr_call (antlr_call : string) : Py unit :=
  let antlr_version_match :=
    Re.re_match antlr_version_pattern (list_ascii_of_string antlr_call) in
  match antlr_version_match with
  | None =>
      print not_found_message;;
      exit 1
  | Some m =>
      match Re.group 1 m with
      | None => raise AttributeError
      | Some txt =>
          let antlr_version := string_of_list_ascii txt in
          if negb (String.prefix antlr_req antlr_version) then
            print (mismatch_message antlr_version);;
            exit 1
          else mret tt
      end
  end.

Definition validate_antlr_version (antlr_v : option string) : Py unit :=
  (* Validate setup *)
  antlr_call ←
    match antlr_v with
    | Some v => run_output "antlr4" ["-v"; v] None
    | None => run_output "antlr4" [] None
    end;
  check_antlr_call antlr_call.

End Script.

(** ** Vocabulary of the statements *)

(** The process [validate_antlr_version] spawns to read the banner. *)
Definition probe (antlr_v : option string) : invocation :=
  {| inv_cmd := "antlr4";
     inv_args := match antlr_v with Some v => ["-v"; v] | None => [] end;
     inv_cwd := None |}.

(** The version read off the generator's output: group 1 of the match
    of [antlr_version_pattern]. *)
Definition banner_version (out : string) : option string :=
  m ← Re.re_match antlr_version_pattern (list_ascii_of_string out);
  txt ← Re.group 1 m;
  Some (string_of_list_ascii txt).

(** The banner occurs in [out] after some leading characters. *)
Definition banner_after_leading (out : string) : Prop :=
  exists pre tail,
    pre <> [] /\ list_ascii_of_string out = pre ++ tail
    /\ Re.matches_at_start antlr_version_pattern tail.

(** A machine on which every program prints [text], succeeds, and
    leaves the files alone. *)
Definition printing (text : string)
    : invocation -> filesystem -> option (string * filesystem) :=
  fun _ f => Some (text, f).

(** A machine on which every program succeeds silently and leaves the
    file system as [f]. *)
Definition leaving (f : filesystem)
    : invocation -> filesystem -> option (string * filesystem) :=
  fun _ _ => Some ("", f).

(** An entry a cleanup pass for [pat] deletes. *)
Definition removable (pat : string) (ne : string * entry) : bool :=
  regular (snd ne) && fnmatch (fst ne) pat.


(** The generator command line of [generate_antlr_grammar]. *)
Definition generator_args (make_relative : Path -> Path -> Path)
    (cwd output_path : Path) (files : list Path)
    (antlr_v : option string) : list string :=
  match antlr_v with Some v => ["-v"; v] | None => [] end
    ++ ["-Dlanguage=Swift"; "-visitor"]
    ++ map (make_relative cwd) files
    ++ ["-o"; make_relative cwd output_path; "-Xexact-output-dir"].

(** A process that has done nothing yet, in an empty file system. *)
Definition empty_world : World := {| trace := []; fs := ∅; cwd := "/repo" |}.

(** An output in which a banner follows another banner. *)
Definition doubled_banner : string :=
  "ANTLR Parser Generator  Version 4.11.0 ANTLR Parser Generator  Version 4.11.1".

(** Whether [name] is a regular file of [d]. *)
Definition is_regular (d : directory) (name : string) : bool :=
  match dir_lookup d name with
  | Some e => regular e
  | None => false
  end.

(** Whether the process may remove the entry [name] of [d]. *)
Definition is_unlinkable (d : directory) (name : string) : bool :=
  match dir_lookup d name with
  | Some e => unlinkable e
  | None => false
  end.

(** Every entry a cleanup pass for [pat] deletes may be removed. *)
Definition may_remove (pat : string) (d : directory) : Prop :=
  forall ne, In ne d -> removable pat ne = true -> unlinkable (snd ne) = true.

Definition mem (name : string) (l : list string) : bool :=
  existsb (String.eqb name) l.

(** The confirmation line of a deleted file. *)
Definition removed_line (make_relative : Path -> Path -> Path)
    (cwd output_path : Path) (name : string) : string :=
  "Removed " ++ make_relative cwd (child output_path name).

(** What deleting one file leaves in the trace. *)
Definition removal (make_relative : Path -> Path -> Path)
    (cwd output_path : Path) (name : string) : list event :=
  [Unlinked output_path name;
   Printed (removed_line make_relative cwd output_path name)].

(** A monadic action that spawns no process. *)
Definition quiet {A : Type} (m : Py A) : Prop :=
  forall w, spawned (trace (fst (m w))) = spawned (trace w).

(** The process [generate_antlr_grammar] spawns. *)
Definition generator_invocation (make_relative : Path -> Path -> Path)
    (cwd output_path : Path) (files : list Path)
    (antlr_v : option string) : invocation :=
  {| inv_cmd := "antlr4";
     inv_args := generator_args make_relative cwd output_path files antlr_v;
     inv_cwd := None |}.


(** A directory with entries that only look extraneous: a subdirectory
    named like a token file, and files whose names merely contain the
    extensions. *)
Definition mixed_dir : directory :=
  [("cache.tokens", {| regular := false; content := ""; unlinkable := true |});
   ("A.interp", {| regular := true; content := "a"; unlinkable := true |});
   ("A.interp.bak", {| regular := true; content := "b"; unlinkable := true |});
   (".tokens", {| regular := true; content := "c"; unlinkable := true |});
   ("tokens", {| regular := true; content := "d"; unlinkable := true |})].

(** The cleanup scenario in a directory the process may not write. *)
Definition read_only_dir : directory :=
  [("Foo.tokens",
    {| regular := true; content := "T__0=1"; unlinkable := false |});
   ("Foo.interp",
    {| regular := true; content := "token literal names:";
       unlinkable := false |});
   ("Foo.swift",
    {| regular := true; content := "open class Foo {}";
       unlinkable := false |})].

(** A directory in which one byproduct is protected: [A.interp] and
    [A.tokens] may be removed, [B.tokens] may not. *)
Definition protected_dir : directory :=
  [("A.tokens", {| regular := true; content := "a"; unlinkable := true |});
   ("B.tokens", {| regular := true; content := "b"; unlinkable := false |});
   ("A.interp", {| regular := true; content := "c"; unlinkable := true |})].

(** A file system whose only directory is [gen], holding [d]. *)
Definition gen_fs (d : directory) : filesystem := {[ "gen" := d ]}.

(** [make_relative] on paths that are relative already. *)
Definition keep_path (cwd p : Path) : Path := p.

(** *** The shape of a banner *)

(** [(?:\d+\.)+\d+], the part of [antlr_version_pattern] inside
    group 1. *)
Definition version_re : Re.regex :=
  Re.Cat (Re.Plus (Re.Cat (Re.Plus (Re.Cls Re.is_digit)) (Re.Chr ".")))
         (Re.Plus (Re.Cls Re.is_digit)).

(** A dotted-numeric text: two or more runs of digits joined by dots. *)
Definition dotted_numeric (v : string) : Prop :=
  Re.lang version_re (list_ascii_of_string v).

(** A non-empty run of characters of the class [p]. *)
Definition is_run (p : ascii -> bool) (cs : list ascii) : bool :=
  match cs with
  | [] => false
  | _ :: _ => forallb p cs
  end.

(** A text matched by [\s+] as a whole. *)
Definition blank (ws : string) : bool :=
  is_run Re.is_space (list_ascii_of_string ws).

(** Whether a text begins with a character of the class [p]. *)
Definition heads_with (p : ascii -> bool) (s : list ascii) : bool :=
  match s with
  | [] => false
  | c :: _ => p c
  end.

(** A text that cannot continue a version: it begins neither with a
    digit nor with a dot followed by a digit. *)
Definition clean_cut (rest : string) : bool :=
  match list_ascii_of_string rest with
  | [] => true
  | c :: r =>
      negb (Re.is_digit c) && negb (Ascii.eqb c "." && heads_with Re.is_digit r)
  end.

(** The threads of [p+] on a run [cs] followed by [rest]: the longest
    first. *)
Fixpoint runs (caps : Re.captures) (cs rest : list ascii) : list Re.thread :=
  match cs with
  | [] => []
  | _ :: cs' => runs caps cs' rest ++ [(caps, cs' ++ rest)]
  end.

(** The text of the groups [g1.g2. ... gn.] *)
Fixpoint dotted (gs : list (list ascii)) : list ascii :=
  match gs with
  | [] => []
  | g :: gs' => g ++ "."%char :: dotted gs'
  end.

(** The threads of [(?:\d+\.)+] on the groups [gs] followed by [tail]:
    the one that took every group first. *)
Fixpoint group_threads (caps : Re.captures) (gs : list (list ascii))
    (tail : list ascii) : list Re.thread :=
  match gs with
  | [] => []
  | _ :: gs' => group_threads caps gs' tail ++ [(caps, dotted gs' ++ tail)]
  end.

(** The world [validate_antlr_version] leaves when it prints nothing:
    the probe is in the trace and the files are as the probe left
    them. *)
Definition probed (antlr_v : option string) (fs' : filesystem)
    (w : World) : World :=
  set_fs fs' (emit (Spawned (probe antlr_v)) w).



(** One group of a version, [\d+\.] *)
Definition digits_then_dot : Re.regex :=
  Re.Cat (Re.Plus (Re.Cls Re.is_digit)) (Re.Chr ".").

(** Whether the search finds a thread that consumes [s] whole. *)
Definition full_match (r : Re.regex) (s : list ascii) : bool :=
  existsb (fun th : Re.thread => match snd th with [] => true | _ => false end)
          (Re.backtrack (length s) r s []).

(** An output that begins with a banner: the two words, each followed
    by the text [ws1], [ws2], then [v], then [rest]. *)
Definition banner (ws1 ws2 v rest : string) : string :=
  String.append "ANTLR Parser Generator"
    (String.append ws1
       (String.append "Version"
          (String.append ws2 (String.append v rest)))).

(** ** Properties of the matcher *)

Module ReFacts.
Import Re.

Lemma backtrack_cat n r1 r2 s caps :
  backtrack n (Cat r1 r2) s caps
  = flat_map (fun th : thread => backtrack n r2 (snd th) (fst th))
             (backtrack n r1 s caps).
Proof. destruct n; reflexivity. Qed.

Lemma backtrack_plus_O r s caps :
  backtrack 0 (Plus r) s caps
  = flat_map (fun th : thread => [th]) (backtrack 0 r s caps).
Proof. reflexivity. Qed.

Lemma backtrack_plus_S n r s caps :
  backtrack (S n) (Plus r) s caps
  = flat_map
      (fun th : thread =>
         (if (length (snd th) <? length s)%nat
          then backtrack n (Plus r) (snd th) (fst th)
          else []) ++ [th])
      (backtrack (S n) r s caps).
Proof. reflexivity. Qed.

Lemma backtrack_grp n i r s caps :
  backtrack n (Grp i r) s caps
  = map (fun th : thread =>
           ((i, take (length s - length (snd th)) s) :: fst th, snd th))
        (backtrack n r s caps).
Proof. destruct n; reflexivity. Qed.

Lemma backtrack_chr n c s caps :
  backtrack n (Chr c) s caps
  = match s with
    | c' :: t => if Ascii.eqb c c' then [(caps, t)] else []
    | [] => []
    end.
Proof. destruct n; reflexivity. Qed.

Lemma backtrack_cls n p s caps :
  backtrack n (Cls p) s caps
  = match s with
    | c' :: t => if p c' then [(caps, t)] else []
    | [] => []
    end.
Proof. destruct n; reflexivity. Qed.

Lemma backtrack_eps n s caps : backtrack n Eps s caps = [(caps, s)].
Proof. destruct n; reflexivity. Qed.

(** Every thread the search produces has consumed a text of the
    language. *)
Lemma backtrack_sound n :
  forall r s caps th,
    In th (backtrack n r s caps) ->
    exists p, s = p ++ snd th /\ lang r p.
Proof.
  induction n as [|n IHn]; intros r;
    induction r as [|c|p|r1 IH1 r2 IH2|r IHr|i r IHr]; intros s caps th Hin.
  all: try (rewrite backtrack_eps in Hin; destruct Hin as [<-|[]];
            exists []; split; [reflexivity|constructor]).
  all: try (rewrite backtrack_chr in Hin; destruct s as [|c' t]; [destruct Hin|];
            destruct (Ascii.eqb_spec c c') as [->|]; [|destruct Hin];
            destruct Hin as [<-|[]]; exists [c']; split; [reflexivity|constructor]).
  all: try (rewrite backtrack_cls in Hin; destruct s as [|c' t]; [destruct Hin|];
            destruct (p c') eqn:Hp; [|destruct Hin];
            destruct Hin as [<-|[]]; exists [c']; split;
            [reflexivity|constructor; exact Hp]).
  all: try (rewrite backtrack_cat in Hin; apply in_flat_map in Hin;
            destruct Hin as (th1 & H1 & H2);
            apply IH1 in H1; destruct H1 as (u & -> & Hu);
            apply IH2 in H2; destruct H2 as (v & Hv & Hl);
            exists (u ++ v); split;
            [rewrite Hv, app_assoc; reflexivity|constructor; assumption]).
  all: try (rewrite backtrack_grp in Hin; apply in_map_iff in Hin;
            destruct Hin as (th1 & <- & H1);
            apply IHr in H1; destruct H1 as (u & -> & Hu);
            exists u; split; [reflexivity|constructor; exact Hu]).
  - rewrite backtrack_plus_O in Hin. apply in_flat_map in Hin.
    destruct Hin as (th1 & H1 & [<-|[]]).
    apply IHr in H1. destruct H1 as (u & -> & Hu).
    exists u. split; [reflexivity|apply lang_plus_one; exact Hu].
  - rewrite backtrack_plus_S in Hin. apply in_flat_map in Hin.
    destruct Hin as (th1 & H1 & H2).
    apply IHr in H1. destruct H1 as (u & -> & Hu).
    apply in_app_iff in H2. destruct H2 as [H2|[<-|[]]].
    + destruct (_ <? _)%nat; [|destruct H2].
      apply IHn in H2. destruct H2 as (v & Hv & Hl).
      exists (u ++ v). split.
      * rewrite Hv, app_assoc. reflexivity.
      * apply lang_plus_more; assumption.
    + exists u. split; [reflexivity|apply lang_plus_one; exact Hu].
Qed.

Lemma backtrack_shorter n r s caps th :
  In th (backtrack n r s caps) -> (length (snd th) <= length s)%nat.
Proof.
  intros H. apply backtrack_sound in H. destruct H as (p & -> & _).
  rewrite length_app. lia.
Qed.

(** Every text of the language at the start of [s] is found by the
    search, when the fuel covers the text. *)
Lemma backtrack_complete r p :
  lang r p ->
  forall n rest caps,
    (length (p ++ rest) <= n)%nat ->
    exists caps', In (caps', rest) (backtrack n r (p ++ rest) caps).
Proof.
  induction 1 as [|c|q c Hq|r1 r2 u v _ IHu _ IHv|r u _ IHu
                  |r u v _ IHu _ IHv|i r u _ IHu]; intros n rest caps Hn.
  - rewrite backtrack_eps. exists caps. left. reflexivity.
  - rewrite backtrack_chr. simpl. rewrite Ascii.eqb_refl.
    exists caps. left. reflexivity.
  - rewrite backtrack_cls. simpl. rewrite Hq.
    exists caps. left. reflexivity.
  - rewrite backtrack_cat, <- app_assoc.
    rewrite <- app_assoc in Hn.
    destruct (IHu n (v ++ rest) caps Hn) as (caps1 & H1).
    destruct (IHv n rest caps1) as (caps2 & H2).
    { rewrite length_app in Hn. lia. }
    exists caps2. apply in_flat_map. exists (caps1, v ++ rest). split; assumption.
  - destruct (IHu n rest caps Hn) as (caps1 & H1).
    exists caps1. destruct n as [|n].
    + rewrite backtrack_plus_O. apply in_flat_map.
      exists (caps1, rest). split; [exact H1|left; reflexivity].
    + rewrite backtrack_plus_S. apply in_flat_map.
      exists (caps1, rest). split; [exact H1|].
      apply in_app_iff. right. left. reflexivity.
  - destruct u as [|a u].
    + exact (IHv n rest caps Hn).
    + rewrite <- app_assoc. rewrite <- app_assoc in Hn.
      destruct n as [|n]; [simpl in Hn; lia|].
      destruct (IHu (S n) (v ++ rest) caps Hn) as (caps1 & H1).
      destruct (IHv n rest caps1) as (caps2 & H2).
      { simpl in Hn. rewrite length_app in Hn. lia. }
      exists caps2. rewrite backtrack_plus_S. apply in_flat_map.
      exists (caps1, v ++ rest). split; [exact H1|].
      apply in_app_iff. left. simpl fst. simpl snd.
      replace (length (v ++ rest) <? length ((a :: u) ++ v ++ rest))%nat
        with true; [exact H2|].
      symmetry. apply Nat.ltb_lt. simpl. rewrite !length_app. lia.
  - destruct (IHu n rest caps Hn) as (caps1 & H1).
    rewrite backtrack_grp.
    eexists. apply in_map_iff. exists (caps1, rest). split; [reflexivity|exact H1].
Qed.

(** [Pattern.match] fails exactly on the texts that do not begin with a
    text of the pattern's language. *)
Lemma re_match_None r s :
  re_match r s = None <-> ~ matches_at_start r s.
Proof.
  unfold re_match, matches_at_start. split.
  - intros Hnone (p & rest & -> & Hp).
    destruct (backtrack_complete r p Hp (length (p ++ rest)) rest [] (le_n _))
      as (caps' & Hin).
    destruct (backtrack _ r _ _); [destruct Hin|discriminate].
  - intros Hno. destruct (backtrack _ r s []) as [|th l] eqn:E; [reflexivity|].
    exfalso. apply Hno.
    destruct (backtrack_sound (length s) r s [] th) as (p & Hs & Hp).
    { rewrite E. left. reflexivity. }
    exists p, (snd th). split; assumption.
Qed.

Lemma re_match_Some r s :
  is_Some (re_match r s) <-> matches_at_start r s.
Proof.
  split.
  - intros [m Hm]. unfold re_match in Hm.
    destruct (backtrack _ r s []) as [|th l] eqn:E; [discriminate|].
    destruct (backtrack_sound (length s) r s [] th) as (p & Hs & Hp).
    { rewrite E. left. reflexivity. }
    exists p, (snd th). split; assumption.
  - intros H. destruct (re_match r s) eqn:E; [eexists; reflexivity|].
    apply re_match_None in E. contradiction.
Qed.

Lemma flat_map_agree {A B : Type} (f g : A -> list B) (l : list A) :
  (forall a, In a l -> f a = g a) -> flat_map f l = flat_map g l.
Proof.
  induction l as [|a l IH]; intros H; [reflexivity|].
  simpl. rewrite (H a (or_introl eq_refl)), IH; [reflexivity|].
  intros b Hb. apply H. right. exact Hb.
Qed.

(** The fuel [re_match] gives the search is enough: any larger amount
    produces the same threads in the same order. *)
Lemma backtrack_fuel n :
  forall m r s caps,
    (length s <= n)%nat -> (length s <= m)%nat ->
    backtrack n r s caps = backtrack m r s caps.
Proof.
  induction n as [|n IHn]; intros m r;
    induction r as [|c|p|r1 IH1 r2 IH2|r IHr|i r IHr]; intros s caps Hn Hm.
  all: try (rewrite !backtrack_eps; reflexivity).
  all: try (rewrite !backtrack_chr; reflexivity).
  all: try (rewrite !backtrack_cls; reflexivity).
  all: try (rewrite !backtrack_cat, (IH1 s caps Hn Hm);
            apply flat_map_agree; intros th Hth;
            apply backtrack_shorter in Hth; apply IH2; lia).
  all: try (rewrite !backtrack_grp, (IHr s caps Hn Hm); reflexivity).
  - rewrite backtrack_plus_O, (IHr s caps Hn Hm).
    destruct m as [|m]; [reflexivity|].
    rewrite backtrack_plus_S. apply flat_map_agree. intros th _.
    replace (length (snd th) <? length s)%nat with false; [reflexivity|].
    symmetry. apply Nat.ltb_ge. lia.
  - rewrite backtrack_plus_S, (IHr s caps Hn Hm).
    destruct m as [|m].
    + rewrite backtrack_plus_O. apply flat_map_agree. intros th _.
      replace (length (snd th) <? length s)%nat with false; [reflexivity|].
      symmetry. apply Nat.ltb_ge. lia.
    + rewrite backtrack_plus_S. apply flat_map_agree. intros th _.
      destruct (Nat.ltb_spec (length (snd th)) (length s)); [|reflexivity].
      f_equal. apply IHn; lia.
Qed.

End ReFacts.

(** ** The version validator *)

Section Validator.

Variable exec : invocation -> filesystem -> option (string * filesystem).

Lemma validate_probe antlr_v w :
  validate_antlr_version exec antlr_v w
  = match exec (probe antlr_v) (fs w) with
    | Some (out, fs') =>
        check_antlr_call out (set_fs fs' (emit (Spawned (probe antlr_v)) w))
    | None =>
        (emit (Spawned (probe antlr_v)) w, Raised (ProcessFailed (probe antlr_v)))
    end.
Proof.
  unfold validate_antlr_version, probe, mbind, Py_bind, bind, run_output.
  destruct antlr_v as [v|]; simpl;
    (destruct (exec _ (fs w)) as [[out fs']|]; reflexivity).
Qed.

(** A successful match of the banner pattern always carries group 1. *)
Lemma banner_group n s caps th :
  In th (Re.backtrack n antlr_version_pattern s caps) ->
  is_Some (Re.group 1 (fst th)).
Proof.
  unfold antlr_version_pattern. intros H.
  repeat (rewrite ReFacts.backtrack_cat in H; apply in_flat_map in H;
          destruct H as (? & _ & H)).
  rewrite ReFacts.backtrack_grp in H. apply in_map_iff in H.
  destruct H as (th' & <- & _). simpl. eexists. reflexivity.
Qed.

Lemma check_antlr_call_spec out w :
  check_antlr_call out w
  = match banner_version out with
    | None => (emit (Printed not_found_message) w, Exited 1)
    | Some v =>
        if String.prefix antlr_req v then (w, Returned tt)
        else (emit (Printed (mismatch_message v)) w, Exited 1)
    end.
Proof.
  unfold check_antlr_call, banner_version.
  destruct (Re.re_match _ _) as [m|] eqn:E; simpl; [|reflexivity].
  assert (Hg : is_Some (Re.group 1 m)).
  { unfold Re.re_match in E.
    destruct (Re.backtrack _ _ _ _) as [|th l] eqn:B; [discriminate|].
    injection E as <-. apply (banner_group _ _ _ _ ltac:(rewrite B; left; reflexivity)). }
  destruct Hg as [txt ->]. simpl.
  destruct (String.prefix _ _); reflexivity.
Qed.

(** The banner is recognised exactly when the output begins with a text
    of the pattern's language. *)
Lemma banner_version_Some out :
  is_Some (banner_version out)
  <-> Re.matches_at_start antlr_version_pattern (list_ascii_of_string out).
Proof.
  rewrite <- ReFacts.re_match_Some. unfold banner_version, Re.re_match.
  destruct (Re.backtrack _ _ _ _) as [|th l] eqn:B; simpl.
  - split; intros [x Hx]; discriminate.
  - destruct (banner_group _ _ _ th ltac:(rewrite B; left; reflexivity))
      as [txt ->]. simpl. split; intros _; eexists; reflexivity.
Qed.

(** What the code accepts: the outputs whose banner version has
    [antlr_req] as a string prefix. *)
Lemma check_antlr_call_returns out w :
  snd (check_antlr_call out w) = Returned tt
  <-> exists v, banner_version out = Some v
                /\ String.prefix antlr_req v = true.
Proof.
  rewrite check_antlr_call_spec.
  destruct (banner_version out) as [v|]; simpl.
  - destruct (String.prefix antlr_req v) eqn:P; simpl.
    + split; [intros _; exists v; split; [reflexivity|exact P]|reflexivity].
    + split; [discriminate|]. intros (v' & [= <-] & H). congruence.
  - split; [discriminate|]. intros (v' & H & _). discriminate.
Qed.

End Validator.

Lemma printed_app t1 t2 : printed (t1 ++ t2) = printed t1 ++ printed t2.
Proof.
  induction t1 as [|[l|i|d n] t1 IH]; simpl; rewrite ?IH; reflexivity.
Qed.

Lemma spawned_app t1 t2 : spawned (t1 ++ t2) = spawned t1 ++ spawned t2.
Proof.
  induction t1 as [|[l|i|d n] t1 IH]; simpl; rewrite ?IH; reflexivity.
Qed.

(** C1, at the inputs on which the code departs from it: with the
    required version 4.11, a generator that reports version 4.110.0 (or
    4.111.0) passes the validation; the call returns normally and prints
    nothing, because the test is a bare string-prefix test. *)
Theorem validate_accepts_4_110 antlr_v w :
  validate_antlr_version
    (printing "ANTLR Parser Generator  Version 4.110.0") antlr_v w
  = (emit (Spawned (probe antlr_v)) w, Returned tt)
  /\ validate_antlr_version
       (printing "ANTLR Parser Generator  Version 4.111.0") antlr_v w
     = (emit (Spawned (probe antlr_v)) w, Returned tt)
  /\ banner_version "ANTLR Parser Generator  Version 4.110.0" = Some "4.110.0"
  /\ String.prefix antlr_req "4.110.0" = true.
Proof.
  rewrite !validate_probe. unfold printing. rewrite !check_antlr_call_spec.
  destruct w as [t f c].
  repeat split; vm_compute; reflexivity.
Qed.

(** C3: when the banner pattern does not match the generator's output,
    [validate_antlr_version] prints the tool-not-found diagnostic and
    exits with status 1. *)
Theorem validate_banner_missing exec antlr_v w out fs' :
  exec (probe antlr_v) (fs w) = Some (out, fs') ->
  ~ Re.matches_at_start antlr_version_pattern (list_ascii_of_string out) ->
  validate_antlr_version exec antlr_v w
  = (emit (Printed "Antlr4 not found! Please install Antlr4 before proceeding: https://antlr.org")
          (set_fs fs' (emit (Spawned (probe antlr_v)) w)),
     Exited 1).
Proof.
  intros Hexec Hno. rewrite validate_probe, Hexec, check_antlr_call_spec.
  unfold banner_version.
  apply ReFacts.re_match_None in Hno. rewrite Hno. reflexivity.
Qed.

Lemma validate_banner_missing_witness :
  (snd (validate_antlr_version (printing "") None empty_world) = Exited 1
   /\ printed (trace (fst (validate_antlr_version (printing "") None empty_world)))
      = [not_found_message])
  /\ snd (validate_antlr_version (printing "unrelated text") (Some "4.11.1")
                                 empty_world) = Exited 1.
Proof.
  split; [split|].
  - rewrite (validate_banner_missing (printing "") None empty_world "" ∅).
    + reflexivity.
    + reflexivity.
    + apply ReFacts.re_match_None. vm_compute. reflexivity.
  - rewrite (validate_banner_missing (printing "") None empty_world "" ∅).
    + reflexivity.
    + reflexivity.
    + apply ReFacts.re_match_None. vm_compute. reflexivity.
  - rewrite (validate_banner_missing (printing "unrelated text") (Some "4.11.1")
               empty_world "unrelated text" ∅).
    + reflexivity.
    + reflexivity.
    + apply ReFacts.re_match_None. vm_compute. reflexivity.
Defined.

(** C4: when the banner reports version 4.10.3 (the required version
    being 4.11), [validate_antlr_version] prints a diagnostic that names
    the expected version 4.11.* and the version found, 4.10.3, and exits
    with status 1. *)
Theorem validate_rejects_4_10_3 exec antlr_v w out fs' :
  exec (probe antlr_v) (fs w) = Some (out, fs') ->
  banner_version out = Some "4.10.3" ->
  antlr_req = "4.11"
  /\ validate_antlr_version exec antlr_v w
     = (emit (Printed "Expected Antlr version 4.11.*, but found 4.10.3!")
             (set_fs fs' (emit (Spawned (probe antlr_v)) w)),
        Exited 1).
Proof.
  intros Hexec Hv. split; [reflexivity|].
  rewrite validate_probe, Hexec, check_antlr_call_spec, Hv. reflexivity.
Qed.

Lemma validate_rejects_4_10_3_witness :
  snd (validate_antlr_version
         (printing "ANTLR Parser Generator  Version 4.10.3") None empty_world)
  = Exited 1
  /\ printed (trace (fst (validate_antlr_version
         (printing "ANTLR Parser Generator  Version 4.10.3") None empty_world)))
     = ["Expected Antlr version 4.11.*, but found 4.10.3!"].
Proof.
  destruct (validate_rejects_4_10_3
              (printing "ANTLR Parser Generator  Version 4.10.3") None
              empty_world "ANTLR Parser Generator  Version 4.10.3" ∅)
    as [_ H].
  - reflexivity.
  - vm_compute. reflexivity.
  - rewrite H. split; reflexivity.
Defined.

(** C5: for the banner "ANTLR Parser Generator  Version 4.11.1" (the
    required version being 4.11) [validate_antlr_version] returns
    normally: the process does not exit and nothing is printed; the only
    trace of the call is the probe of the generator. *)
Theorem validate_accepts_4_11_1 exec antlr_v w fs' :
  exec (probe antlr_v) (fs w)
  = Some ("ANTLR Parser Generator  Version 4.11.1", fs') ->
  validate_antlr_version exec antlr_v w
  = (set_fs fs' (emit (Spawned (probe antlr_v)) w), Returned tt)
  /\ printed (trace (fst (validate_antlr_version exec antlr_v w)))
     = printed (trace w).
Proof.
  intros Hexec.
  assert (E : validate_antlr_version exec antlr_v w
              = (set_fs fs' (emit (Spawned (probe antlr_v)) w), Returned tt)).
  { rewrite validate_probe, Hexec, check_antlr_call_spec. reflexivity. }
  split; [exact E|].
  rewrite E. simpl. rewrite printed_app. simpl. apply app_nil_r.
Qed.

Lemma validate_accepts_4_11_1_witness :
  validate_antlr_version
    (printing "ANTLR Parser Generator  Version 4.11.1") None empty_world
  = (emit (Spawned (probe None)) empty_world, Returned tt).
Proof.
  destruct (validate_accepts_4_11_1
              (printing "ANTLR Parser Generator  Version 4.11.1") None
              empty_world ∅) as [H _].
  - reflexivity.
  - rewrite H. reflexivity.
Defined.

(** C8, as stated, fails: an output in which the banner follows some
    leading characters is accepted when those leading characters
    themselves begin with a banner.  Here the banner of version 4.11.1
    comes after 39 leading characters, and the call returns normally. *)
Lemma banner_after_banner_accepted :
  banner_after_leading doubled_banner
  /\ validate_antlr_version (printing doubled_banner) None empty_world
     = (emit (Spawned (probe None)) empty_world, Returned tt).
Proof.
  split.
  - exists (list_ascii_of_string "ANTLR Parser Generator  Version 4.11.0 "),
           (list_ascii_of_string "ANTLR Parser Generator  Version 4.11.1").
    split; [discriminate|]. split; [reflexivity|].
    apply ReFacts.re_match_Some. vm_compute. eexists. reflexivity.
  - rewrite validate_probe. unfold printing.
    rewrite check_antlr_call_spec. vm_compute. reflexivity.
Qed.

(** C8, amended: the banner is recognised only at the very beginning of
    the output.  For every output in which the banner comes after some
    leading characters and which does not itself begin with a banner,
    [validate_antlr_version] prints the tool-not-found diagnostic and
    exits with status 1; no version is extracted. *)
Theorem validate_banner_not_at_start exec antlr_v w out fs' :
  exec (probe antlr_v) (fs w) = Some (out, fs') ->
  banner_after_leading out ->
  ~ Re.matches_at_start antlr_version_pattern (list_ascii_of_string out) ->
  banner_version out = None
  /\ validate_antlr_version exec antlr_v w
     = (emit (Printed not_found_message)
             (set_fs fs' (emit (Spawned (probe antlr_v)) w)),
        Exited 1).
Proof.
  intros Hexec _ Hno.
  apply ReFacts.re_match_None in Hno.
  assert (Hv : banner_version out = None).
  { unfold banner_version. rewrite Hno. reflexivity. }
  split; [exact Hv|].
  rewrite validate_probe, Hexec, check_antlr_call_spec, Hv. reflexivity.
Qed.

Lemma validate_banner_not_at_start_witness :
  snd (validate_antlr_version
         (printing "> ANTLR Parser Generator  Version 4.11.1") None empty_world)
  = Exited 1
  /\ printed (trace (fst (validate_antlr_version
         (printing "> ANTLR Parser Generator  Version 4.11.1") None empty_world)))
     = [not_found_message].
Proof.
  destruct (validate_banner_not_at_start
              (printing "> ANTLR Parser Generator  Version 4.11.1") None
              empty_world "> ANTLR Parser Generator  Version 4.11.1" ∅)
    as [_ H].
  - reflexivity.
  - exists (list_ascii_of_string "> "),
           (list_ascii_of_string "ANTLR Parser Generator  Version 4.11.1").
    split; [discriminate|]. split; [reflexivity|].
    apply ReFacts.re_match_Some. vm_compute. eexists. reflexivity.
  - apply ReFacts.re_match_None. vm_compute. reflexivity.
  - rewrite H. split; reflexivity.
Defined.

(** ** Directories *)

Lemma dir_lookup_In d ne :
  wf_dir d -> In ne d -> dir_lookup d (fst ne) = Some (snd ne).
Proof.
  unfold wf_dir, names.
  induction d as [|[n e] d IH]; intros Hwf Hin; [destruct Hin|].
  simpl in *. inversion Hwf as [|? ? Hn Hd]; subst.
  destruct Hin as [<-|Hin].
  - simpl. rewrite String.eqb_refl. reflexivity.
  - destruct (String.eqb_spec n (fst ne)) as [->|_].
    + exfalso. apply Hn. apply in_map. exact Hin.
    + apply IH; assumption.
Qed.

Lemma names_remove d x :
  names (dir_remove d x)
  = List.filter (fun n => negb (String.eqb n x)) (names d).
Proof.
  unfold names, dir_remove.
  induction d as [|[n e] d IH]; [reflexivity|].
  simpl. destruct (String.eqb n x); simpl; rewrite IH; reflexivity.
Qed.

Lemma wf_dir_remove d x : wf_dir d -> wf_dir (dir_remove d x).
Proof.
  unfold wf_dir. rewrite names_remove. apply List.NoDup_filter.
Qed.

Lemma wf_dir_filter f d : wf_dir d -> wf_dir (List.filter f d).
Proof.
  unfold wf_dir, names.
  induction d as [|ne d IH]; intros Hwf; [exact Hwf|].
  simpl in *. inversion Hwf as [|? ? Hn Hd]; subst.
  destruct (f ne); [|apply IH; exact Hd].
  simpl. constructor; [|apply IH; exact Hd].
  intros Hin. apply Hn. apply in_map_iff in Hin.
  destruct Hin as (ne' & <- & Hin'). apply in_map.
  apply List.filter_In in Hin'. tauto.
Qed.

Lemma dir_lookup_remove_ne d x n :
  n <> x -> dir_lookup (dir_remove d x) n = dir_lookup d n.
Proof.
  unfold dir_remove. intros Hne.
  induction d as [|[m e] d IH]; [reflexivity|].
  simpl. destruct (String.eqb_spec m x) as [->|Hmx]; simpl.
  - destruct (String.eqb_spec x n) as [->|_]; [contradiction|exact IH].
  - destruct (String.eqb m n); [reflexivity|exact IH].
Qed.

Lemma is_regular_remove_ne d x n :
  n <> x -> is_regular (dir_remove d x) n = is_regular d n.
Proof.
  intros Hne. unfold is_regular. rewrite dir_lookup_remove_ne by exact Hne.
  reflexivity.
Qed.

Lemma is_unlinkable_remove_ne d x n :
  n <> x -> is_unlinkable (dir_remove d x) n = is_unlinkable d n.
Proof.
  intros Hne. unfold is_unlinkable. rewrite dir_lookup_remove_ne by exact Hne.
  reflexivity.
Qed.

Lemma mem_In n l : mem n l = true <-> In n l.
Proof.
  unfold mem. rewrite existsb_exists. split.
  - intros (x & Hx & He). apply String.eqb_eq in He. subst. exact Hx.
  - intros H. exists n. split; [exact H|apply String.eqb_refl].
Qed.

(** *** fnmatch with a pattern [*suffix] *)




Lemma filter_all {A : Type} (f : A -> bool) (l : list A) :
  (forall x, In x l -> f x = true) -> List.filter f l = l.
Proof.
  induction l as [|a l IH]; intros H; [reflexivity|].
  simpl. rewrite (H a (or_introl eq_refl)), IH; [reflexivity|].
  intros x Hx. apply H. right. exact Hx.
Qed.

Lemma filter_twice {A : Type} (f g : A -> bool) (l : list A) :
  List.filter f (List.filter g l) = List.filter (fun x => g x && f x) l.
Proof.
  induction l as [|a l IH]; [reflexivity|].
  simpl. destruct (g a); simpl; [destruct (f a)|]; rewrite IH; reflexivity.
Qed.

(** ** The cleanup passes *)

Section Cleanup.

Variable make_relative : Path -> Path -> Path.
Variables c out : Path.

Lemma remove_if_file_step w d x :
  fs w !! out = Some d ->
  remove_if_file make_relative c out x w
  = if is_regular d x
    then if is_unlinkable d x
         then ({| trace := trace w ++ removal make_relative c out x;
                  fs := <[out := dir_remove d x]> (fs w);
                  cwd := cwd w |}, Returned tt)
         else (w, Raised (PermissionError (child out x)))
    else (w, Returned tt).
Proof.
  intros Hfs.
  unfold remove_if_file, mbind, Py_bind, bind, is_file, unlink, print,
    is_regular, is_unlinkable.
  rewrite Hfs.
  destruct (dir_lookup d x) as [e|] eqn:E; [|reflexivity].
  destruct (regular e); [|reflexivity].
  rewrite Hfs, E. destruct (unlinkable e); [|reflexivity].
  unfold emit, set_fs, removal, removed_line. simpl.
  rewrite <- app_assoc. reflexivity.
Qed.

(** The loop of a cleanup pass over the names [l] found by [glob]. *)
Lemma for_each_remove_if_file l :
  forall w d,
    fs w !! out = Some d -> wf_dir d -> List.NoDup l ->
    (forall n, In n l -> is_regular d n = true -> is_unlinkable d n = true) ->
    for_each l (remove_if_file make_relative c out) w
    = ({| trace :=
            trace w
              ++ flat_map (fun n => if is_regular d n
                                    then removal make_relative c out n
                                    else []) l;
          fs := <[out := List.filter
                           (fun ne => negb (regular (snd ne) && mem (fst ne) l))
                           d]> (fs w);
          cwd := cwd w |}, Returned tt).
Proof.
  induction l as [|x l IH]; intros w d Hfs Hwf Hnd Hmay.
  - simpl. unfold mret, Py_ret, ret. f_equal.
    rewrite app_nil_r, filter_all.
    + rewrite (insert_id _ _ _ Hfs). destruct w; reflexivity.
    + intros ne _. rewrite andb_false_r. reflexivity.
  - inversion Hnd as [|? ? Hx Hl]; subst.
    change (for_each (x :: l) (remove_if_file make_relative c out) w)
      with (bind (fun _ => for_each l (remove_if_file make_relative c out))
                 (remove_if_file make_relative c out x) w).
    unfold bind. rewrite (remove_if_file_step w d x Hfs).
    simpl flat_map.
    destruct (is_regular d x) eqn:R.
    + rewrite (Hmay x (or_introl eq_refl) R).
      rewrite (IH _ (dir_remove d x)); simpl.
      * f_equal. f_equal.
        -- rewrite <- app_assoc. f_equal. unfold removal at 1. simpl.
           do 2 f_equal.
           apply ReFacts.flat_map_agree. intros n Hn.
           rewrite is_regular_remove_ne; [reflexivity|].
           intros ->. contradiction.
        -- rewrite insert_insert_eq. f_equal.
           unfold dir_remove. rewrite filter_twice.
           apply List.filter_ext_in. intros ne Hne.
           destruct (String.eqb_spec (fst ne) x) as [E|_]; simpl; [|reflexivity].
           unfold is_regular in R. rewrite <- E in R.
           rewrite (dir_lookup_In d ne Hwf Hne) in R. rewrite R. reflexivity.
      * apply lookup_insert_eq.
      * apply wf_dir_remove. exact Hwf.
      * exact Hl.
      * intros n Hn. assert (n <> x) by (intros ->; contradiction).
        rewrite is_regular_remove_ne, is_unlinkable_remove_ne by assumption.
        apply Hmay. right. exact Hn.
    + rewrite (IH w d Hfs Hwf Hl).
      * f_equal. f_equal. f_equal.
        apply List.filter_ext_in. intros ne Hne. simpl.
        destruct (String.eqb_spec (fst ne) x) as [E|_]; simpl; [|reflexivity].
        unfold is_regular in R. rewrite <- E in R.
        rewrite (dir_lookup_In d ne Hwf Hne) in R. rewrite R. reflexivity.
      * intros n Hn. apply Hmay. right. exact Hn.
Qed.

(** The loop stops with [PermissionError] at the first regular file it
    may not remove. *)
Lemma for_each_remove_raises l :
  forall w d,
    fs w !! out = Some d -> wf_dir d -> List.NoDup l ->
    (exists n, In n l /\ is_regular d n = true /\ is_unlinkable d n = false) ->
    exists n,
      In n l
      /\ snd (for_each l (remove_if_file make_relative c out) w)
         = Raised (PermissionError (child out n)).
Proof.
  induction l as [|x l IH]; intros w d Hfs Hwf Hnd (n & Hin & Hr & Hu);
    [destruct Hin|].
  inversion Hnd as [|? ? Hx Hl]; subst.
  change (for_each (x :: l) (remove_if_file make_relative c out) w)
    with (bind (fun _ => for_each l (remove_if_file make_relative c out))
               (remove_if_file make_relative c out x) w).
  unfold bind. rewrite (remove_if_file_step w d x Hfs).
  destruct (is_regular d x) eqn:R; [destruct (is_unlinkable d x) eqn:U|].
  - assert (Hne : n <> x) by (intros ->; congruence).
    destruct Hin as [E|Hin]; [congruence|].
    destruct (IH {| trace := trace w ++ removal make_relative c out x;
                    fs := <[out := dir_remove d x]> (fs w);
                    cwd := cwd w |} (dir_remove d x))
      as (n' & Hn' & E').
    + apply lookup_insert_eq.
    + apply wf_dir_remove. exact Hwf.
    + exact Hl.
    + exists n. rewrite is_regular_remove_ne, is_unlinkable_remove_ne
        by exact Hne. tauto.
    + exists n'. split; [right; exact Hn'|exact E'].
  - exists x. split; [left; reflexivity|reflexivity].
  - assert (Hne : n <> x) by (intros ->; congruence).
    destruct Hin as [E|Hin]; [congruence|].
    destruct (IH w d Hfs Hwf Hl) as (n' & Hn' & E').
    + exists n. tauto.
    + exists n'. split; [right; exact Hn'|exact E'].
Qed.

Lemma flat_map_regular {B : Type} (g : string -> list B) (m : string -> bool)
    (d0 d : directory) :
  wf_dir d0 -> (forall ne, In ne d -> In ne d0) ->
  flat_map (fun n => if is_regular d0 n then g n else [])
           (List.filter m (names d))
  = flat_map g
      (names (List.filter (fun ne => regular (snd ne) && m (fst ne)) d)).
Proof.
  intros Hwf. induction d as [|ne d IH]; intros Hsub; [reflexivity|].
  assert (IH' := IH (fun x Hx => Hsub x (or_intror Hx))).
  assert (R : is_regular d0 (fst ne) = regular (snd ne)).
  { unfold is_regular.
    rewrite (dir_lookup_In d0 ne Hwf (Hsub ne (or_introl eq_refl))).
    reflexivity. }
  simpl. destruct (m (fst ne)); simpl.
  - rewrite R, IH'. destruct (regular (snd ne)); reflexivity.
  - rewrite andb_false_r. exact IH'.
Qed.

(** One cleanup pass over an existing directory, when the process may
    remove what the pass selects. *)
Lemma remove_matching_spec w d pat :
  fs w !! out = Some d -> wf_dir d -> may_remove pat d ->
  remove_matching make_relative c out pat w
  = ({| trace :=
          trace w ++ flat_map (removal make_relative c out)
                              (names (List.filter (removable pat) d));
        fs := <[out := List.filter (fun ne => negb (removable pat ne)) d]> (fs w);
        cwd := cwd w |}, Returned tt).
Proof.
  intros Hfs Hwf Hmay.
  unfold remove_matching, mbind, Py_bind, bind, glob. rewrite Hfs. simpl default.
  rewrite (for_each_remove_if_file _ w d Hfs Hwf).
  - f_equal. f_equal.
    + f_equal. apply (flat_map_regular _ (fun n => fnmatch n pat) d d Hwf).
      intros ne H. exact H.
    + f_equal. apply List.filter_ext_in. intros ne Hne.
      unfold removable. f_equal. f_equal.
      apply Bool.eq_iff_eq_true. rewrite mem_In, List.filter_In.
      split; [tauto|]. intros H. split; [|exact H].
      apply in_map. exact Hne.
  - apply List.NoDup_filter. exact Hwf.
  - intros n Hn Hr. apply List.filter_In in Hn. destruct Hn as [Hn Hm].
    apply in_map_iff in Hn. destruct Hn as (ne & <- & Hne).
    unfold is_regular, is_unlinkable in *.
    rewrite (dir_lookup_In d ne Hwf Hne) in *.
    apply (Hmay ne Hne). unfold removable. rewrite Hr, Hm. reflexivity.
Qed.

(** A cleanup pass that meets a file it may not remove raises
    [PermissionError]. *)
Lemma remove_matching_raises w d pat :
  fs w !! out = Some d -> wf_dir d -> ~ may_remove pat d ->
  exists n,
    snd (remove_matching make_relative c out pat w)
    = Raised (PermissionError (child out n)).
Proof.
  intros Hfs Hwf Hno.
  assert (Hex : exists ne, In ne d /\ removable pat ne = true
                           /\ unlinkable (snd ne) = false).
  { clear Hfs Hwf. unfold may_remove in Hno.
    induction d as [|ne d IH]; [exfalso; apply Hno; intros ? []|].
    destruct (removable pat ne && negb (unlinkable (snd ne))) eqn:B.
    - apply andb_true_iff in B. destruct B as [B1 B2].
      apply negb_true_iff in B2.
      exists ne. split; [left; reflexivity|split; assumption].
    - destruct IH as (ne' & Hin & H).
      + intros Hd. apply Hno. intros x [<-|Hx] Hr; [|apply Hd; assumption].
        rewrite Hr in B. simpl in B. apply negb_false_iff in B. exact B.
      + exists ne'. split; [right; exact Hin|exact H]. }
  destruct Hex as (ne & Hne & Hr & Hu).
  unfold removable in Hr. apply andb_true_iff in Hr. destruct Hr as [Hr Hm].
  unfold remove_matching, mbind, Py_bind, bind, glob. rewrite Hfs. simpl default.
  destruct (for_each_remove_raises
              (List.filter (fun n => fnmatch n pat) (names d)) w d Hfs Hwf)
    as (n & _ & E).
  - apply List.NoDup_filter. exact Hwf.
  - exists (fst ne). unfold is_regular, is_unlinkable.
    rewrite (dir_lookup_In d ne Hwf Hne). split; [|split; assumption].
    apply List.filter_In. split; [apply in_map; exact Hne|exact Hm].
  - exists n. exact E.
Qed.

(** A cleanup pass returns only when it could remove every file it
    selected. *)
Lemma remove_matching_returns w d pat :
  fs w !! out = Some d -> wf_dir d ->
  snd (remove_matching make_relative c out pat w) = Returned tt ->
  may_remove pat d.
Proof.
  intros Hfs Hwf Hret ne Hne Hr.
  destruct (unlinkable (snd ne)) eqn:Hu; [reflexivity|]. exfalso.
  destruct (remove_matching_raises w d pat Hfs Hwf) as (n & E).
  - intros Hmay. rewrite (Hmay ne Hne Hr) in Hu. discriminate.
  - rewrite E in Hret. discriminate.
Qed.


End Cleanup.

(** ** The generator invocation *)

Section Generator.

Variable make_relative : Path -> Path -> Path.
Variable exec : invocation -> filesystem -> option (string * filesystem).

Lemma generate_unfold output_path files antlr_v w :
  generate_antlr_grammar make_relative exec output_path files antlr_v w
  = let c := cwd w in
    let rel := make_relative c output_path in
    let inv := generator_invocation make_relative c output_path files antlr_v in
    let w1 :=
      emit (Spawned inv)
           (emit (Printed ("Generating Antlr grammar files to " ++ rel ++ "..."))
                 w) in
    match exec inv (fs w) with
    | None => (w1, Raised (ProcessFailed inv))
    | Some (_, fs1) =>
        (remove_matching make_relative c output_path "*.interp";;
         remove_matching make_relative c output_path "*.tokens")
          (emit (Printed ("Removing extraneous generated files in "
                            ++ rel ++ "..."))
                (set_fs fs1 w1))
    end.
Proof.
  unfold generate_antlr_grammar, generator_invocation, generator_args,
    run, run_output, Path_cwd, print, mbind, Py_bind, bind, mret, Py_ret, ret.
  destruct antlr_v as [v|]; simpl;
    (destruct (exec _ (fs w)) as [[text fs1]|]; reflexivity).
Qed.

Lemma remove_if_file_quiet c out x :
  quiet (remove_if_file make_relative c out x).
Proof.
  intros w.
  unfold remove_if_file, mbind, Py_bind, bind, is_file, unlink, print, mret,
    Py_ret, ret.
  destruct (fs w !! out) as [d|] eqn:Hfs; [|reflexivity].
  destruct (dir_lookup d x) as [e|] eqn:E; [|reflexivity].
  destruct (regular e); [|reflexivity].
  rewrite Hfs, E. destruct (unlinkable e); [|reflexivity].
  simpl. rewrite !spawned_app. simpl. rewrite !app_nil_r.
  reflexivity.
Qed.

Lemma for_each_quiet {A : Type} (body : A -> Py unit) (l : list A) :
  (forall x, quiet (body x)) -> quiet (for_each l body).
Proof.
  intros Hbody. induction l as [|x l IH]; intros w; [reflexivity|].
  change (for_each (x :: l) body w)
    with (bind (fun _ => for_each l body) (body x) w).
  unfold bind. specialize (Hbody x w).
  destruct (body x w) as [w1 [[]|n|e]]; simpl in *;
    [rewrite IH|..]; exact Hbody.
Qed.

Lemma remove_matching_quiet c out pat :
  quiet (remove_matching make_relative c out pat).
Proof.
  intros w. unfold remove_matching, mbind, Py_bind, bind, glob.
  apply for_each_quiet. intros x. apply remove_if_file_quiet.
Qed.

Lemma cleanup_quiet c out :
  quiet (remove_matching make_relative c out "*.interp";;
         remove_matching make_relative c out "*.tokens").
Proof.
  intros w. unfold mbind, Py_bind, bind.
  pose proof (remove_matching_quiet c out "*.interp" w) as H1.
  destruct (remove_matching make_relative c out "*.interp" w)
    as [w1 [[]|n|e]]; simpl in *; [|exact H1..].
  rewrite remove_matching_quiet. exact H1.
Qed.

(** [generate_antlr_grammar] spawns one process, the generator, whether
    or not the generator succeeds and whatever the cleanup meets. *)
Lemma generate_spawned output_path files antlr_v w :
  spawned (trace (fst (generate_antlr_grammar make_relative exec
                         output_path files antlr_v w)))
  = spawned (trace w)
      ++ [generator_invocation make_relative (cwd w) output_path files antlr_v].
Proof.
  rewrite generate_unfold. cbv zeta.
  destruct (exec _ (fs w)) as [[text fs1]|].
  - rewrite cleanup_quiet. simpl. rewrite !spawned_app. simpl.
    rewrite !app_nil_r. reflexivity.
  - simpl. rewrite !spawned_app. simpl. rewrite !app_nil_r. reflexivity.
Qed.

End Generator.

(** C6: the generator is invoked with its arguments in this order: the
    version selector ([-v] and its value) first when one is supplied,
    then [-Dlanguage=Swift], [-visitor], the input paths each made
    relative to the current working directory, [-o], the output
    directory made relative likewise, and [-Xexact-output-dir].  This
    holds for every list of input files, the non-empty ones included. *)
Theorem generate_argument_order make_relative exec output_path files antlr_v w :
  spawned (trace (fst (generate_antlr_grammar make_relative exec
                         output_path files antlr_v w)))
  = spawned (trace w)
      ++ [{| inv_cmd := "antlr4";
             inv_args :=
               match antlr_v with Some v => ["-v"; v] | None => [] end
                 ++ ["-Dlanguage=Swift"; "-visitor"]
                 ++ map (make_relative (cwd w)) files
                 ++ ["-o"; make_relative (cwd w) output_path;
                     "-Xexact-output-dir"];
             inv_cwd := None |}].
Proof. apply generate_spawned. Qed.

(** C9: with an empty list of input files the generator is still
    invoked: the command carries the language flag, the visitor flag,
    [-o] with the normalised output path and [-Xexact-output-dir], and
    no positional input path. *)
Theorem generate_no_input_files make_relative exec output_path antlr_v w :
  spawned (trace (fst (generate_antlr_grammar make_relative exec
                         output_path [] antlr_v w)))
  = spawned (trace w)
      ++ [{| inv_cmd := "antlr4";
             inv_args :=
               match antlr_v with Some v => ["-v"; v] | None => [] end
                 ++ ["-Dlanguage=Swift"; "-visitor"; "-o";
                     make_relative (cwd w) output_path;
                     "-Xexact-output-dir"];
             inv_cwd := None |}].
Proof. rewrite generate_spawned. reflexivity. Qed.

(** C7: [transform_source] first prints its status line and then runs
    the build tool, in the fixed package directory, with the arguments
    [run], [-c=release], [--skip-build], the product name
    [AntlrGrammars] and the source files as they were given, in that
    order. *)
Theorem transform_source_invocation grammars_package_path exec swift_files w :
  trace (fst (transform_source grammars_package_path exec swift_files w))
  = trace w
      ++ [Printed "Transforming source files...";
          Spawned {| inv_cmd := "swift";
                     inv_args :=
                       ["run"; "-c=release"; "--skip-build"; "AntlrGrammars"]
                         ++ swift_files;
                     inv_cwd := Some (grammars_package_path ".") |}].
Proof.
  unfold transform_source, call_swift, run, run_output, print, mbind, Py_bind,
    bind, mret, Py_ret, ret.
  simpl. destruct (exec _ (fs w)) as [[text fs1]|]; simpl;
    rewrite <- app_assoc; reflexivity.
Qed.

(** C10: [build_swift_gen_transformer] runs the build tool once, in the
    fixed package directory, with the arguments [build] and
    [-c=release] and nothing else; it does nothing besides. *)
Theorem build_invocation grammars_package_path exec w :
  trace (fst (build_swift_gen_transformer grammars_package_path exec w))
  = trace w
      ++ [Spawned {| inv_cmd := "swift";
                     inv_args := ["build"; "-c=release"];
                     inv_cwd := Some (grammars_package_path ".") |}].
Proof.
  unfold build_swift_gen_transformer, call_swift, run, run_output, mbind,
    Py_bind, bind, mret, Py_ret, ret.
  simpl. destruct (exec _ (fs w)) as [[text fs1]|]; reflexivity.
Qed.

(** ** The cleanup after generation *)



Section GeneratorOutcome.

Variable make_relative : Path -> Path -> Path.
Variable exec : invocation -> filesystem -> option (string * filesystem).



End GeneratorOutcome.


Ltac wf_dir_by_computation :=
  unfold wf_dir; vm_compute;
  repeat (constructor; [simpl; intuition discriminate|]); constructor.


(** The passes look at the whole name and at the kind of the entry: a
    directory named [cache.tokens] and the files [A.interp.bak] and
    [tokens] stay; [A.interp] and the file named [.tokens] go. *)
Example cleanup_mixed_dir :
  let done :=
    generate_antlr_grammar keep_path (leaving (gen_fs mixed_dir))
      "gen" [] (Some "4.11.1") empty_world in
  option_map names (fs (fst done) !! "gen")
  = Some ["cache.tokens"; "A.interp.bak"; "tokens"]
  /\ printed (trace (fst done))
     = ["Generating Antlr grammar files to gen...";
        "Removing extraneous generated files in gen...";
        "Removed gen/A.interp";
        "Removed gen/.tokens"].
Proof. vm_compute. split; reflexivity. Qed.

(** In a directory the process may not write, the first [unlink] raises:
    the call ends with [PermissionError], no file is deleted and no
    confirmation line is printed. *)
Example cleanup_read_only_dir :
  let done :=
    generate_antlr_grammar keep_path (leaving (gen_fs read_only_dir))
      "gen" ["Foo.g4"] None empty_world in
  snd done = Raised (PermissionError "gen/Foo.interp")
  /\ fs (fst done) !! "gen" = Some read_only_dir
  /\ printed (trace (fst done))
     = ["Generating Antlr grammar files to gen...";
        "Removing extraneous generated files in gen..."].
Proof. vm_compute. repeat split; reflexivity. Qed.

(** A failure in the second pass leaves the first pass done: [A.interp]
    and [A.tokens] are gone and reported when [B.tokens] stops the
    call. *)
Example cleanup_protected_file :
  let done :=
    generate_antlr_grammar keep_path (leaving (gen_fs protected_dir))
      "gen" ["Foo.g4"] None empty_world in
  snd done = Raised (PermissionError "gen/B.tokens")
  /\ option_map names (fs (fst done) !! "gen") = Some ["B.tokens"]
  /\ printed (trace (fst done))
     = ["Generating Antlr grammar files to gen...";
        "Removing extraneous generated files in gen...";
        "Removed gen/A.interp";
        "Removed gen/A.tokens"].
Proof. vm_compute. repeat split; reflexivity. Qed.

(** [child] at the two roots and below an ordinary directory. *)
Example child_at_roots :
  child "//" "x.tokens" = "//x.tokens"
  /\ child "/" "x.tokens" = "/x.tokens"
  /\ child "." "x.tokens" = "x.tokens"
  /\ child "out/gen" "x.tokens" = "out/gen/x.tokens".
Proof. repeat split; reflexivity. Qed.

(** ** The greedy match of the banner *)

Module Greedy.
Import Re ReFacts.

Lemma flat_map_nil {A B : Type} (f : A -> list B) (l : list A) :
  (forall x, In x l -> f x = []) -> flat_map f l = [].
Proof.
  induction l as [|a l IH]; intros H; [reflexivity|].
  simpl. rewrite (H a (or_introl eq_refl)), IH; [reflexivity|].
  intros x Hx. apply H. right. exact Hx.
Qed.

(** [p+] finds nothing at a text that does not begin with [p]. *)
Lemma backtrack_plus_cls_none p n rest caps :
  heads_with p rest = false ->
  backtrack n (Plus (Cls p)) rest caps = [].
Proof.
  intros Hrest. assert (E : backtrack n (Cls p) rest caps = []).
  { rewrite backtrack_cls. destruct rest as [|c t]; [reflexivity|].
    simpl in Hrest. rewrite Hrest. reflexivity. }
  destruct n as [|n].
  - rewrite backtrack_plus_O, E. reflexivity.
  - rewrite backtrack_plus_S, E. reflexivity.
Qed.

(** [p+] on a run of [p] followed by a text that does not go on with
    [p]: the threads are those of [runs]. *)
Lemma backtrack_plus_cls p :
  forall cs n rest caps,
    forallb p cs = true -> heads_with p rest = false ->
    (length (cs ++ rest) <= n)%nat ->
    backtrack n (Plus (Cls p)) (cs ++ rest) caps = runs caps cs rest.
Proof.
  induction cs as [|c cs IH]; intros n rest caps Hcs Hrest Hn.
  - apply backtrack_plus_cls_none. exact Hrest.
  - simpl in Hcs. apply andb_true_iff in Hcs. destruct Hcs as [Hc Hcs].
    destruct n as [|n]; [simpl in Hn; lia|].
    simpl app. rewrite backtrack_plus_S, backtrack_cls, Hc. simpl.
    replace (length (cs ++ rest) <? S (length (cs ++ rest)))%nat with true
      by (symmetry; apply Nat.ltb_lt; lia).
    rewrite IH; [|exact Hcs|exact Hrest|simpl in Hn; lia].
    rewrite app_nil_r. reflexivity.
Qed.

(** The first thread of a run is the one that took it whole; the others
    still begin with a character of the class. *)
Lemma runs_shape p caps rest :
  forall cs c,
    forallb p (c :: cs) = true ->
    exists tl,
      runs caps (c :: cs) rest = (caps, rest) :: tl
      /\ (forall th, In th tl -> fst th = caps /\ heads_with p (snd th) = true).
Proof.
  induction cs as [|c' cs IH]; intros c Hc.
  - exists []. split; [reflexivity|]. intros th [].
  - simpl in Hc. apply andb_true_iff in Hc. destruct Hc as [_ Hc].
    destruct (IH c' Hc) as (tl & E & Htl).
    exists (tl ++ [(caps, (c' :: cs) ++ rest)]). split.
    + change (runs caps (c :: c' :: cs) rest)
        with (runs caps (c' :: cs) rest ++ [(caps, (c' :: cs) ++ rest)]).
      rewrite E. reflexivity.
    + intros th Hth. apply in_app_iff in Hth. destruct Hth as [Hth|[<-|[]]].
      * apply Htl. exact Hth.
      * split; [reflexivity|]. simpl. apply andb_true_iff in Hc. tauto.
Qed.

Lemma backtrack_run_head p n cs rest caps :
  is_run p cs = true -> heads_with p rest = false ->
  (length (cs ++ rest) <= n)%nat ->
  exists tl,
    backtrack n (Plus (Cls p)) (cs ++ rest) caps = (caps, rest) :: tl
    /\ (forall th, In th tl -> fst th = caps /\ heads_with p (snd th) = true).
Proof.
  intros Hrun Hrest Hn. destruct cs as [|c cs]; [discriminate|].
  rewrite backtrack_plus_cls; [|exact Hrun|exact Hrest|exact Hn].
  apply runs_shape. exact Hrun.
Qed.

Lemma backtrack_lit cs :
  forall n x caps, backtrack n (lit cs) (cs ++ x) caps = [(caps, x)].
Proof.
  induction cs as [|c cs IH]; intros n x caps.
  - apply backtrack_eps.
  - simpl. rewrite backtrack_cat, backtrack_chr, Ascii.eqb_refl. simpl.
    rewrite IH. reflexivity.
Qed.

(** One group [\d+\.] on a run of digits followed by a dot. *)
Lemma backtrack_group n ds t caps :
  is_run is_digit ds = true ->
  (length (ds ++ "."%char :: t) <= n)%nat ->
  backtrack n digits_then_dot (ds ++ "."%char :: t) caps = [(caps, t)].
Proof.
  intros Hds Hn. unfold digits_then_dot. rewrite backtrack_cat.
  destruct (backtrack_run_head is_digit n ds ("."%char :: t) caps Hds eq_refl Hn)
    as (tl & -> & Htl).
  simpl. rewrite backtrack_chr, Ascii.eqb_refl. simpl. f_equal.
  apply flat_map_nil. intros th Hth. destruct (Htl th Hth) as [_ Hd].
  rewrite backtrack_chr. destruct (snd th) as [|c u]; [reflexivity|].
  simpl in Hd. destruct (Ascii.eqb_spec "."%char c) as [<-|_]; [discriminate|].
  reflexivity.
Qed.

(** No group starts at a text that does not begin with a digit. *)
Lemma backtrack_group_no_digit n rest caps :
  heads_with is_digit rest = false ->
  backtrack n digits_then_dot rest caps = [].
Proof.
  intros Hrest. unfold digits_then_dot.
  rewrite backtrack_cat, backtrack_plus_cls_none by exact Hrest. reflexivity.
Qed.

(** No group starts at a run of digits that no dot follows. *)
Lemma backtrack_group_no_dot n ds rest caps :
  is_run is_digit ds = true ->
  heads_with is_digit rest = false ->
  heads_with (Ascii.eqb ".") rest = false ->
  (length (ds ++ rest) <= n)%nat ->
  backtrack n digits_then_dot (ds ++ rest) caps = [].
Proof.
  intros Hds Hdig Hdot Hn. unfold digits_then_dot. rewrite backtrack_cat.
  destruct (backtrack_run_head is_digit n ds rest caps Hds Hdig Hn)
    as (tl & -> & Htl).
  apply flat_map_nil. intros th [<-|Hth]; rewrite backtrack_chr.
  - simpl. destruct rest as [|c u]; [reflexivity|].
    simpl in Hdot. rewrite Hdot. reflexivity.
  - destruct (Htl th Hth) as [_ Hd]. destruct (snd th) as [|c u]; [reflexivity|].
    simpl in Hd. destruct (Ascii.eqb_spec "."%char c) as [<-|_]; [discriminate|].
    reflexivity.
Qed.

Lemma dotted_snoc gs g tail :
  dotted (gs ++ [g]) ++ tail = dotted gs ++ g ++ "."%char :: tail.
Proof.
  induction gs as [|h gs IH]; simpl.
  - rewrite <- app_assoc. reflexivity.
  - rewrite <- !app_assoc. simpl. rewrite IH. reflexivity.
Qed.

Lemma group_threads_snoc caps gs g tail :
  group_threads caps (gs ++ [g]) tail
  = (caps, tail) :: group_threads caps gs (g ++ "."%char :: tail).
Proof.
  induction gs as [|h gs IH]; [reflexivity|].
  simpl. rewrite IH, dotted_snoc. reflexivity.
Qed.

(** [(?:\d+\.)+] on the groups [gs] followed by a text at which no
    further group starts. *)
Lemma backtrack_groups :
  forall gs n tail caps,
    forallb (is_run is_digit) gs = true ->
    (forall m caps', (length tail <= m)%nat ->
                     backtrack m digits_then_dot tail caps' = []) ->
    (length (dotted gs ++ tail) <= n)%nat ->
    backtrack n (Plus digits_then_dot) (dotted gs ++ tail) caps
    = group_threads caps gs tail.
Proof.
  induction gs as [|g gs IH]; intros n tail caps Hgs Hdead Hn.
  - simpl in *. destruct n as [|n].
    + rewrite backtrack_plus_O, (Hdead _ _ Hn). reflexivity.
    + rewrite backtrack_plus_S, (Hdead _ _ Hn). reflexivity.
  - simpl in Hgs. apply andb_true_iff in Hgs. destruct Hgs as [Hg Hgs].
    simpl dotted in *. rewrite <- app_assoc in *. simpl in Hn |- *.
    assert (Hlen : (length (dotted gs ++ tail)
                    < length (g ++ "."%char :: dotted gs ++ tail))%nat).
    { rewrite (length_app g). simpl. lia. }
    destruct n as [|n]; [lia|].
    assert (Hn' : (length (dotted gs ++ tail) <= n)%nat) by lia.
    rewrite backtrack_plus_S, (backtrack_group _ g _ caps Hg Hn). simpl.
    replace (length (dotted gs ++ tail)
             <? length (g ++ "."%char :: dotted gs ++ tail))%nat with true
      by (symmetry; apply Nat.ltb_lt; exact Hlen).
    rewrite IH; [|exact Hgs|exact Hdead|exact Hn'].
    rewrite app_nil_r. reflexivity.
Qed.

(** The greedy match of [version_re]: on a dotted-numeric text followed
    by a text that cannot continue it, the first thread has consumed
    the whole dotted-numeric text. *)
Lemma backtrack_version_head n gs g dl rest caps :
  forallb (is_run is_digit) gs = true ->
  is_run is_digit g = true ->
  is_run is_digit dl = true ->
  heads_with is_digit rest = false ->
  (forall r, rest = "."%char :: r -> heads_with is_digit r = false) ->
  (length (dotted (gs ++ [g]) ++ dl ++ rest) <= n)%nat ->
  exists tl,
    backtrack n version_re (dotted (gs ++ [g]) ++ dl ++ rest) caps
    = (caps, rest) :: tl.
Proof.
  intros Hgs Hg Hdl Hdig Hdot Hn.
  assert (Hall : forallb (is_run is_digit) (gs ++ [g]) = true).
  { rewrite forallb_app, Hgs. simpl. rewrite Hg. reflexivity. }
  change version_re with (Cat (Plus digits_then_dot) (Plus (Cls is_digit))).
  rewrite backtrack_cat.
  assert (Hsuffix : (length (dl ++ rest) <= n)%nat).
  { rewrite length_app in Hn. lia. }
  destruct (heads_with (Ascii.eqb ".") rest) eqn:Hd.
  - destruct rest as [|c r]; [discriminate|].
    unfold heads_with in Hd. apply Ascii.eqb_eq in Hd. subst c.
    specialize (Hdot r eq_refl).
    rewrite <- (dotted_snoc (gs ++ [g]) dl r) in Hn |- *.
    rewrite backtrack_groups; [| |intros; apply backtrack_group_no_digit; exact Hdot|exact Hn].
    + rewrite !group_threads_snoc. simpl.
      rewrite backtrack_plus_cls_none by exact Hdot. simpl.
      destruct (backtrack_run_head is_digit n dl ("."%char :: r) caps Hdl eq_refl
                  Hsuffix) as (tl & -> & _).
      eexists. reflexivity.
    + rewrite forallb_app, Hall. simpl. rewrite Hdl. reflexivity.
  - rewrite backtrack_groups; [|exact Hall| |exact Hn].
    + rewrite group_threads_snoc. simpl.
      destruct (backtrack_run_head is_digit n dl rest caps Hdl Hdig Hsuffix)
        as (tl & -> & _).
      eexists. reflexivity.
    + intros m caps' Hm. apply backtrack_group_no_dot; assumption.
Qed.

(** *** Texts of the version language *)

Lemma lang_plus_cls p w : lang (Plus (Cls p)) w -> is_run p w = true.
Proof.
  intros H. remember (Plus (Cls p)) as r eqn:Er.
  induction H as [|c|q c Hq|r1 r2 u v _ _ _ _|r u Hu _
                  |r u v Hu _ _ IHv|i r u _ _]; try discriminate.
  - injection Er as ->. inversion Hu; subst. simpl.
    rewrite andb_true_r. assumption.
  - injection Er as ->. specialize (IHv eq_refl).
    inversion Hu; subst. simpl.
    destruct v as [|d v]; [discriminate|].
    apply andb_true_iff. split; assumption.
Qed.

Lemma lang_digits_then_dot u :
  lang digits_then_dot u ->
  exists d, is_run is_digit d = true /\ u = d ++ ["."%char].
Proof.
  intros H. inversion H as [| | |r1 r2 d v Hd Hv| | |]; subst.
  inversion Hv; subst. exists d. split; [|reflexivity].
  apply lang_plus_cls. exact Hd.
Qed.

Lemma lang_groups u :
  lang (Plus digits_then_dot) u ->
  exists gs, gs <> [] /\ forallb (is_run is_digit) gs = true /\ u = dotted gs.
Proof.
  intros H. remember (Plus digits_then_dot) as r eqn:Er.
  induction H as [|c|q c Hq|r1 r2 u v _ _ _ _|r u Hu _
                  |r u v Hu _ _ IHv|i r u _ _]; try discriminate.
  - injection Er as ->. apply lang_digits_then_dot in Hu.
    destruct Hu as (d & Hd & ->). exists [d]. split; [discriminate|].
    simpl. rewrite Hd. split; reflexivity.
  - injection Er as ->. apply lang_digits_then_dot in Hu.
    destruct Hu as (d & Hd & ->).
    destruct (IHv eq_refl) as (gs & _ & Hgs & ->).
    exists (d :: gs). split; [discriminate|]. simpl. rewrite Hd, Hgs.
    split; [reflexivity|]. rewrite <- app_assoc. reflexivity.
Qed.

(** A text of [version_re] is a sequence of one or more groups followed
    by a last run of digits. *)
Lemma lang_version v :
  lang version_re v ->
  exists gs g dl,
    forallb (is_run is_digit) gs = true /\ is_run is_digit g = true
    /\ is_run is_digit dl = true /\ v = dotted (gs ++ [g]) ++ dl.
Proof.
  intros H.
  change version_re with (Cat (Plus digits_then_dot) (Plus (Cls is_digit))) in H.
  inversion H as [| | |r1 r2 u dl Hu Hdl| | |]; subst.
  apply lang_groups in Hu. destruct Hu as (gs & Hne & Hgs & ->).
  apply lang_plus_cls in Hdl.
  destruct (exists_last Hne) as (gs0 & g & ->).
  rewrite forallb_app in Hgs. apply andb_true_iff in Hgs.
  destruct Hgs as [Hgs0 Hg]. simpl in Hg. rewrite andb_true_r in Hg.
  exists gs0, g, dl. repeat split; assumption.
Qed.

Lemma digit_not_space c : is_digit c = true -> is_space c = false.
Proof.
  unfold is_digit, is_space. intros H. apply andb_true_iff in H.
  destruct H as [H1 H2]. apply N.leb_le in H1, H2.
  destruct (N.leb_spec 9 (code c)), (N.leb_spec (code c) 13),
    (N.leb_spec 28 (code c)), (N.leb_spec (code c) 32),
    (N.eqb_spec (code c) 133), (N.eqb_spec (code c) 160);
    simpl; try reflexivity; lia.
Qed.

Lemma heads_version v rest :
  lang version_re v -> exists c u, v ++ rest = c :: u /\ is_digit c = true.
Proof.
  intros H. apply lang_version in H.
  destruct H as (gs & g & dl & Hgs & Hg & _ & ->).
  destruct gs as [|[|c h] gs]; simpl in *; try discriminate.
  - destruct g as [|c g]; [discriminate|]. simpl in *.
    apply andb_true_iff in Hg. eexists _, _. split; [reflexivity|tauto].
  - apply andb_true_iff in Hgs. destruct Hgs as [Hh _].
    apply andb_true_iff in Hh. eexists _, _. split; [reflexivity|tauto].
Qed.

(** The match of the whole pattern on a banner: the group holds the
    dotted-numeric text, whatever clean text follows. *)
Lemma re_match_banner ws1 ws2 v rest :
  is_run is_space ws1 = true -> is_run is_space ws2 = true ->
  lang version_re v ->
  heads_with is_digit rest = false ->
  (forall r, rest = "."%char :: r -> heads_with is_digit r = false) ->
  re_match antlr_version_pattern
    (list_ascii_of_string "ANTLR Parser Generator" ++ ws1
       ++ list_ascii_of_string "Version" ++ ws2 ++ v ++ rest)
  = Some [(1%nat, v)].
Proof.
  intros H1 H2 Hv Hdig Hdot. unfold re_match.
  set (A := list_ascii_of_string "ANTLR Parser Generator").
  set (V := list_ascii_of_string "Version").
  set (n := length (A ++ ws1 ++ V ++ ws2 ++ v ++ rest)).
  assert (Hn1 : (length (ws1 ++ V ++ ws2 ++ v ++ rest) <= n)%nat).
  { subst n. rewrite (length_app A). lia. }
  assert (Hn2 : (length (ws2 ++ v ++ rest) <= n)%nat).
  { subst n. rewrite (length_app A), (length_app ws1), (length_app V). lia. }
  assert (Hn3 : (length (v ++ rest) <= n)%nat).
  { rewrite (length_app ws2) in Hn2. lia. }
  change antlr_version_pattern
    with (Cat (lit A) (Cat (Plus (Cls is_space)) (Cat (lit V)
           (Cat (Plus (Cls is_space)) (Grp 1 version_re))))).
  rewrite backtrack_cat, backtrack_lit. cbn [flat_map fst snd].
  rewrite app_nil_r, backtrack_cat.
  destruct (backtrack_run_head is_space n ws1 (V ++ ws2 ++ v ++ rest) []
              H1 eq_refl Hn1) as (tl1 & -> & _).
  cbn [flat_map fst snd]. rewrite backtrack_cat, backtrack_lit.
  cbn [flat_map fst snd]. rewrite app_nil_r, backtrack_cat.
  destruct (heads_version v rest Hv) as (c & u & Ecu & Hc).
  destruct (backtrack_run_head is_space n ws2 (v ++ rest) [] H2) as (tl2 & -> & _).
  { rewrite Ecu. simpl. apply digit_not_space. exact Hc. }
  { exact Hn2. }
  cbn [flat_map fst snd]. rewrite backtrack_grp.
  destruct (lang_version v Hv) as (gs & g & dl & Hgs & Hg & Hdl & Ev).
  assert (Hhead : exists tl,
             backtrack n version_re (v ++ rest) [] = ([], rest) :: tl).
  { rewrite Ev, <- app_assoc. apply backtrack_version_head; try assumption.
    rewrite app_assoc, <- Ev. exact Hn3. }
  destruct Hhead as (tl & ->).
  cbn [map fst snd app]. f_equal. f_equal. f_equal.
  rewrite length_app.
  replace (length v + length rest - length rest)%nat with (length v) by lia.
  apply take_app_length.
Qed.

End Greedy.

(** ** Validation of well-formed banners *)

Lemma list_ascii_of_string_app a b :
  list_ascii_of_string (String.append a b)
  = list_ascii_of_string a ++ list_ascii_of_string b.
Proof. induction a as [|c a IH]; simpl; [|rewrite IH]; reflexivity. Qed.

Lemma string_of_list_ascii_app a b :
  string_of_list_ascii (a ++ b)
  = String.append (string_of_list_ascii a) (string_of_list_ascii b).
Proof. induction a as [|c a IH]; simpl; [|rewrite IH]; reflexivity. Qed.

Lemma list_of_banner ws1 ws2 v rest :
  list_ascii_of_string (banner ws1 ws2 v rest)
  = list_ascii_of_string "ANTLR Parser Generator" ++ list_ascii_of_string ws1
      ++ list_ascii_of_string "Version" ++ list_ascii_of_string ws2
      ++ list_ascii_of_string v ++ list_ascii_of_string rest.
Proof. unfold banner. rewrite !list_ascii_of_string_app. reflexivity. Qed.

(** The search decides the language of a pattern. *)
Lemma full_match_lang r s : full_match r s = true <-> Re.lang r s.
Proof.
  unfold full_match. rewrite existsb_exists. split.
  - intros (th & Hin & Hnil). apply ReFacts.backtrack_sound in Hin.
    destruct Hin as (p & -> & Hp). destruct (snd th); [|discriminate].
    rewrite app_nil_r. exact Hp.
  - intros H.
    destruct (ReFacts.backtrack_complete r s H (length s) [] [])
      as (caps & Hin).
    + rewrite app_nil_r. constructor.
    + rewrite app_nil_r in Hin. exists (caps, []). split; [exact Hin|reflexivity].
Qed.

Lemma clean_cut_list rest :
  clean_cut rest = true ->
  heads_with Re.is_digit (list_ascii_of_string rest) = false
  /\ (forall r, list_ascii_of_string rest = "."%char :: r ->
                heads_with Re.is_digit r = false).
Proof.
  unfold clean_cut. destruct (list_ascii_of_string rest) as [|c r].
  - intros _. split; [reflexivity|discriminate].
  - intros H. apply andb_true_iff in H. destruct H as [H1 H2].
    apply negb_true_iff in H1, H2. split; [exact H1|].
    intros r' [= -> ->]. rewrite Ascii.eqb_refl in H2. exact H2.
Qed.

(** The version read off a banner followed by a text that cannot
    continue it is the dotted-numeric text itself. *)
Lemma banner_version_exact ws1 ws2 v rest :
  blank ws1 = true -> blank ws2 = true -> dotted_numeric v ->
  clean_cut rest = true ->
  banner_version (banner ws1 ws2 v rest) = Some v.
Proof.
  intros H1 H2 Hv Hrest. apply clean_cut_list in Hrest.
  destruct Hrest as [Hdig Hdot].
  unfold banner_version. rewrite list_of_banner.
  rewrite (Greedy.re_match_banner _ _ _ _ H1 H2 Hv Hdig Hdot).
  simpl. rewrite string_of_list_ascii_of_string. reflexivity.
Qed.

(** X1: on a banner whose version [v] is followed by a text that cannot
    continue it (the end of the output, a line break, any usage text),
    [validate_antlr_version] depends on [v] alone: it returns, printing
    nothing, when [v] starts with the text 4.11, and otherwise prints
    the mismatch line naming [v] and exits with status 1, also when [v]
    is newer than 4.11. *)
Theorem validate_well_formed_banner exec antlr_v w ws1 ws2 v rest fs' :
  exec (probe antlr_v) (fs w) = Some (banner ws1 ws2 v rest, fs') ->
  blank ws1 = true -> blank ws2 = true -> dotted_numeric v ->
  clean_cut rest = true ->
  validate_antlr_version exec antlr_v w
  = if String.prefix "4.11" v
    then (probed antlr_v fs' w, Returned tt)
    else (emit (Printed ("Expected Antlr version 4.11.*, but found "
                           ++ v ++ "!"))
               (probed antlr_v fs' w),
          Exited 1).
Proof.
  intros Hexec H1 H2 Hv Hrest.
  rewrite validate_probe, Hexec, check_antlr_call_spec.
  rewrite (banner_version_exact _ _ _ _ H1 H2 Hv Hrest). reflexivity.
Qed.

Lemma validate_well_formed_banner_witness :
  validate_antlr_version
    (printing (banner "  " " " "4.13.1" " -o ___  specify output directory"))
    None empty_world
  = (emit (Printed "Expected Antlr version 4.11.*, but found 4.13.1!")
          (probed None ∅ empty_world),
     Exited 1).
Proof.
  rewrite (validate_well_formed_banner
             (printing (banner "  " " " "4.13.1"
                               " -o ___  specify output directory"))
             None empty_world "  " " " "4.13.1"
             " -o ___  specify output directory" ∅).
  - reflexivity.
  - reflexivity.
  - reflexivity.
  - reflexivity.
  - apply full_match_lang. vm_compute. reflexivity.
  - reflexivity.
Defined.

(** ** The longest version at the start of a text *)

Module Longest.
Import Re.

Lemma run_lang p w : is_run p w = true -> lang (Plus (Cls p)) w.
Proof.
  destruct w as [|c w]; [discriminate|]. revert c.
  induction w as [|c' w IH]; intros c H; simpl in H;
    apply andb_true_iff in H; destruct H as [Hc Hw].
  - apply lang_plus_one. constructor. exact Hc.
  - apply (lang_plus_more _ [c] (c' :: w)).
    + constructor. exact Hc.
    + apply IH. exact Hw.
Qed.

Lemma groups_lang gs :
  gs <> [] -> forallb (is_run is_digit) gs = true ->
  lang (Plus digits_then_dot) (dotted gs).
Proof.
  destruct gs as [|g gs]; [congruence|]. intros _. revert g.
  induction gs as [|g' gs IH]; intros g H; simpl in H;
    apply andb_true_iff in H; destruct H as [Hg Hgs].
  - apply lang_plus_one. simpl.
    apply (lang_cat _ _ g ["."%char]); [apply run_lang; exact Hg|constructor].
  - change (dotted (g :: g' :: gs))
      with (g ++ "."%char :: dotted (g' :: gs)).
    replace (g ++ "."%char :: dotted (g' :: gs))
      with ((g ++ ["."%char]) ++ dotted (g' :: gs))
      by (rewrite <- app_assoc; reflexivity).
    apply lang_plus_more.
    + apply (lang_cat _ _ g ["."%char]); [apply run_lang; exact Hg|constructor].
    + apply IH. exact Hgs.
Qed.

Lemma version_lang gs dl :
  gs <> [] -> forallb (is_run is_digit) gs = true ->
  is_run is_digit dl = true ->
  lang version_re (dotted gs ++ dl).
Proof.
  intros Hne Hgs Hdl.
  change version_re with (Cat (Plus digits_then_dot) (Plus (Cls is_digit))).
  constructor; [apply groups_lang; assumption|apply run_lang; exact Hdl].
Qed.

Lemma is_run_snoc p w c :
  is_run p w = true -> p c = true -> is_run p (w ++ [c]) = true.
Proof.
  destruct w as [|a w]; [discriminate|]. simpl. intros H Hc.
  apply andb_true_iff in H. destruct H as [Ha Hw].
  rewrite Ha, forallb_app, Hw. simpl. rewrite Hc. reflexivity.
Qed.

(** A version goes on with a further digit ... *)
Lemma extend_digit v c :
  lang version_re v -> is_digit c = true -> lang version_re (v ++ [c]).
Proof.
  intros Hv Hc. apply Greedy.lang_version in Hv.
  destruct Hv as (gs & g & dl & Hgs & Hg & Hdl & ->).
  rewrite <- app_assoc. apply version_lang.
  - intros E. apply app_eq_nil in E. destruct E; discriminate.
  - rewrite forallb_app, Hgs. simpl. rewrite Hg. reflexivity.
  - apply is_run_snoc; assumption.
Qed.

(** ... and with a dot followed by a digit. *)
Lemma extend_dot_digit v d :
  lang version_re v -> is_digit d = true ->
  lang version_re (v ++ ["."%char; d]).
Proof.
  intros Hv Hd. apply Greedy.lang_version in Hv.
  destruct Hv as (gs & g & dl & Hgs & Hg & Hdl & ->).
  rewrite <- app_assoc.
  change (dl ++ ["."%char; d]) with (dl ++ "."%char :: [d]).
  rewrite <- Greedy.dotted_snoc. apply version_lang.
  - intros E. apply app_eq_nil in E. destruct E; discriminate.
  - rewrite !forallb_app, Hgs. simpl. rewrite Hg, Hdl. reflexivity.
  - simpl. rewrite Hd. reflexivity.
Qed.

(** Any text after a version splits into what continues the version and
    a text that cannot continue it. *)
Lemma longest_version :
  forall k rest v,
    (length rest <= k)%nat -> lang version_re v ->
    exists x rest',
      rest = x ++ rest' /\ lang version_re (v ++ x)
      /\ heads_with is_digit rest' = false
      /\ (forall r, rest' = "."%char :: r -> heads_with is_digit r = false).
Proof.
  induction k as [|k IH]; intros rest v Hk Hv.
  - destruct rest; [|simpl in Hk; lia].
    exists [], []. rewrite (app_nil_r v).
    repeat split; [exact Hv|discriminate].
  - destruct rest as [|c r].
    { exists [], []. rewrite (app_nil_r v).
      repeat split; [exact Hv|discriminate]. }
    simpl in Hk. destruct (is_digit c) eqn:Hc.
    { destruct (IH r (v ++ [c])) as (x & rest' & -> & Hx & H1 & H2);
        [lia|apply extend_digit; assumption|].
      exists (c :: x), rest'. rewrite <- app_assoc in Hx.
      repeat split; assumption. }
    destruct (Ascii.eqb_spec c ".") as [->|Hne].
    + destruct r as [|d r'].
      { exists [], ["."%char]. rewrite (app_nil_r v).
        repeat split; [exact Hv|]. intros r [= <-]. reflexivity. }
      destruct (is_digit d) eqn:Hd.
      * destruct (IH r' (v ++ ["."%char; d])) as (x & rest' & -> & Hx & H1 & H2);
          [simpl in Hk; lia|apply extend_dot_digit; assumption|].
        exists ("."%char :: d :: x), rest'. rewrite <- app_assoc in Hx.
        repeat split; assumption.
      * exists [], ("."%char :: d :: r'). rewrite (app_nil_r v).
        repeat split; [exact Hv|]. intros r [= <-]. exact Hd.
    + exists [], (c :: r). rewrite (app_nil_r v).
      repeat split; [exact Hv|exact Hc|]. intros r' [= E _]. contradiction.
Qed.

End Longest.

Lemma clean_cut_of_list rest :
  heads_with Re.is_digit rest = false ->
  (forall r, rest = "."%char :: r -> heads_with Re.is_digit r = false) ->
  clean_cut (string_of_list_ascii rest) = true.
Proof.
  intros Hdig Hdot. unfold clean_cut.
  rewrite list_ascii_of_string_of_list_ascii.
  destruct rest as [|c r]; [reflexivity|].
  simpl in Hdig. rewrite Hdig. simpl.
  destruct (Ascii.eqb_spec c ".") as [->|_]; [|reflexivity].
  rewrite (Hdot r eq_refl). reflexivity.
Qed.

Lemma string_append_assoc a b c :
  String.append a (String.append b c) = String.append (String.append a b) c.
Proof.
  induction a as [|x a IH]; [reflexivity|].
  change (String x (String.append a (String.append b c))
          = String x (String.append (String.append a b) c)).
  rewrite IH. reflexivity.
Qed.

Lemma banner_assoc ws1 ws2 v x rest :
  banner ws1 ws2 v (String.append x rest)
  = banner ws1 ws2 (String.append v x) rest.
Proof. unfold banner. rewrite (string_append_assoc v x rest). reflexivity. Qed.

Lemma prefix_nil s : String.prefix "" s = true.
Proof. destruct s; reflexivity. Qed.

Lemma prefix_app p v x :
  String.prefix p v = true -> String.prefix p (String.append v x) = true.
Proof.
  revert v. induction p as [|a p IH]; intros v H; [apply prefix_nil|].
  destruct v as [|b v]; [discriminate|].
  change (String.prefix (String a p) (String b (String.append v x)) = true).
  simpl in *.
  destruct (ascii_dec a b); [apply IH; exact H|discriminate].
Qed.

(** The version read off any output that begins with a banner starts
    with the dotted-numeric text of the banner. *)
Lemma banner_version_extends ws1 ws2 v rest :
  blank ws1 = true -> blank ws2 = true -> dotted_numeric v ->
  exists x, banner_version (banner ws1 ws2 v rest) = Some (String.append v x).
Proof.
  intros H1 H2 Hv.
  destruct (Longest.longest_version _ (list_ascii_of_string rest)
              (list_ascii_of_string v) (le_n _) Hv)
    as (x & rest' & E & Hx & Hdig & Hdot).
  exists (string_of_list_ascii x).
  assert (Er : rest = String.append (string_of_list_ascii x)
                                    (string_of_list_ascii rest')).
  { rewrite <- string_of_list_ascii_app, <- E.
    symmetry. apply string_of_list_ascii_of_string. }
  rewrite Er, banner_assoc. apply banner_version_exact.
  - exact H1.
  - exact H2.
  - unfold dotted_numeric.
    rewrite list_ascii_of_string_app, list_ascii_of_string_of_list_ascii.
    exact Hx.
  - apply clean_cut_of_list; assumption.
Qed.

(** X2: an output that begins with a banner whose version text starts
    with 4.11 is accepted whatever follows the banner: the call returns
    and prints nothing. *)
Theorem validate_accepts_any_4_11 exec antlr_v w ws1 ws2 v rest fs' :
  exec (probe antlr_v) (fs w) = Some (banner ws1 ws2 v rest, fs') ->
  blank ws1 = true -> blank ws2 = true -> dotted_numeric v ->
  String.prefix "4.11" v = true ->
  validate_antlr_version exec antlr_v w = (probed antlr_v fs' w, Returned tt).
Proof.
  intros Hexec H1 H2 Hv Hp.
  rewrite validate_probe, Hexec, check_antlr_call_spec.
  destruct (banner_version_extends ws1 ws2 v rest H1 H2 Hv) as (x & ->).
  unfold antlr_req. rewrite (prefix_app _ _ x Hp). reflexivity.
Qed.

Lemma validate_accepts_any_4_11_witness :
  validate_antlr_version
    (printing (banner " " "  " "4.11.1" "7-SNAPSHOT usage: antlr4 [options]"))
    (Some "4.11.1") empty_world
  = (probed (Some "4.11.1") ∅ empty_world, Returned tt).
Proof.
  apply (validate_accepts_any_4_11 _ _ _ " " "  " "4.11.1"
           "7-SNAPSHOT usage: antlr4 [options]").
  - reflexivity.
  - reflexivity.
  - reflexivity.
  - apply full_match_lang. vm_compute. reflexivity.
  - reflexivity.
Defined.

(** ** What an accepted output looks like *)

Lemma lang_lit cs : forall p, Re.lang (Re.lit cs) p -> p = cs.
Proof.
  induction cs as [|c cs IH]; intros p H; simpl in H.
  - inversion H. reflexivity.
  - inversion H as [| | |r1 r2 u v Hu Hv| | |]; subst.
    inversion Hu; subst. rewrite (IH v Hv). reflexivity.
Qed.

(** A match of the banner pattern splits the text into the two words,
    the blanks after each, the version held by group 1, and the rest. *)
Lemma re_match_form s m :
  Re.re_match antlr_version_pattern s = Some m ->
  exists ws1 ws2 v rest,
    s = list_ascii_of_string "ANTLR Parser Generator" ++ ws1
          ++ list_ascii_of_string "Version" ++ ws2 ++ v ++ rest
    /\ is_run Re.is_space ws1 = true /\ is_run Re.is_space ws2 = true
    /\ Re.lang version_re v /\ Re.group 1 m = Some v.
Proof.
  unfold Re.re_match. intros H.
  destruct (Re.backtrack _ _ _ _) as [|th l] eqn:B; [discriminate|].
  injection H as <-.
  assert (Hin : In th (Re.backtrack (length s) antlr_version_pattern s []))
    by (rewrite B; left; reflexivity).
  clear B.
  change antlr_version_pattern
    with (Re.Cat (Re.lit (list_ascii_of_string "ANTLR Parser Generator"))
          (Re.Cat (Re.Plus (Re.Cls Re.is_space))
          (Re.Cat (Re.lit (list_ascii_of_string "Version"))
          (Re.Cat (Re.Plus (Re.Cls Re.is_space)) (Re.Grp 1 version_re)))))
    in Hin.
  rewrite ReFacts.backtrack_cat in Hin. apply in_flat_map in Hin.
  destruct Hin as (t1 & H1 & Hin).
  apply ReFacts.backtrack_sound in H1. destruct H1 as (p1 & E1 & L1).
  apply lang_lit in L1. subst p1.
  rewrite ReFacts.backtrack_cat in Hin. apply in_flat_map in Hin.
  destruct Hin as (t2 & H2 & Hin).
  apply ReFacts.backtrack_sound in H2. destruct H2 as (p2 & E2 & L2).
  apply Greedy.lang_plus_cls in L2.
  rewrite ReFacts.backtrack_cat in Hin. apply in_flat_map in Hin.
  destruct Hin as (t3 & H3 & Hin).
  apply ReFacts.backtrack_sound in H3. destruct H3 as (p3 & E3 & L3).
  apply lang_lit in L3. subst p3.
  rewrite ReFacts.backtrack_cat in Hin. apply in_flat_map in Hin.
  destruct Hin as (t4 & H4 & Hin).
  apply ReFacts.backtrack_sound in H4. destruct H4 as (p4 & E4 & L4).
  apply Greedy.lang_plus_cls in L4.
  rewrite ReFacts.backtrack_grp in Hin. apply in_map_iff in Hin.
  destruct Hin as (t5 & <- & H5).
  apply ReFacts.backtrack_sound in H5. destruct H5 as (p5 & E5 & L5).
  exists p2, p4, p5, (snd t5). repeat split; try assumption.
  - rewrite E1, E2, E3, E4, E5. reflexivity.
  - cbn [fst Re.group Nat.eqb]. f_equal. rewrite E5, length_app.
    replace (length p5 + length (snd t5) - length (snd t5))%nat
      with (length p5) by lia.
    apply take_app_length.
Qed.

Lemma banner_version_form out v :
  banner_version out = Some v ->
  exists ws1 ws2 rest,
    out = banner ws1 ws2 v rest
    /\ blank ws1 = true /\ blank ws2 = true /\ dotted_numeric v.
Proof.
  unfold banner_version. intros H.
  destruct (Re.re_match _ _) as [m|] eqn:Em; [|discriminate]. simpl in H.
  destruct (re_match_form _ _ Em) as (ws1 & ws2 & p & rest & E & H1 & H2 & Hp & Hg).
  rewrite Hg in H. simpl in H. injection H as <-.
  exists (string_of_list_ascii ws1), (string_of_list_ascii ws2),
         (string_of_list_ascii rest).
  unfold blank, dotted_numeric. rewrite !list_ascii_of_string_of_list_ascii.
  repeat split; try assumption.
  rewrite <- (string_of_list_ascii_of_string out), E. unfold banner.
  rewrite !string_of_list_ascii_app, !string_of_list_ascii_of_string.
  reflexivity.
Qed.

(** X3: [validate_antlr_version] returns normally only for an output that
    begins with the words of the banner, each followed by white space,
    and a dotted-numeric version that starts with the text 4.11. *)
Theorem validate_accepts_only_banners exec antlr_v w out fs' :
  exec (probe antlr_v) (fs w) = Some (out, fs') ->
  snd (validate_antlr_version exec antlr_v w) = Returned tt ->
  exists ws1 ws2 v rest,
    out = banner ws1 ws2 v rest
    /\ blank ws1 = true /\ blank ws2 = true /\ dotted_numeric v
    /\ String.prefix "4.11" v = true.
Proof.
  intros Hexec H. rewrite validate_probe, Hexec in H.
  apply check_antlr_call_returns in H. destruct H as (v & Hv & Hp).
  destruct (banner_version_form out v Hv) as (ws1 & ws2 & rest & E & H1 & H2 & Hd).
  exists ws1, ws2, v, rest. repeat split; assumption.
Qed.

Lemma validate_accepts_only_banners_witness :
  exists ws1 ws2 v rest,
    "ANTLR Parser Generator  Version 4.11.1" = banner ws1 ws2 v rest
    /\ blank ws1 = true /\ blank ws2 = true /\ dotted_numeric v
    /\ String.prefix "4.11" v = true.
Proof.
  apply (validate_accepts_only_banners
           (printing "ANTLR Parser Generator  Version 4.11.1") None
           empty_world "ANTLR Parser Generator  Version 4.11.1" ∅).
  - reflexivity.
  - vm_compute. reflexivity.
Defined.

(** X4: when the probe of the generator succeeds,
    [validate_antlr_version] never raises and never touches a file: it
    either returns having printed nothing, or prints one line, the
    not-found line or a mismatch line, and exits with status 1. *)
Theorem validate_outcomes exec antlr_v w out fs' :
  exec (probe antlr_v) (fs w) = Some (out, fs') ->
  validate_antlr_version exec antlr_v w = (probed antlr_v fs' w, Returned tt)
  \/ exists line,
       validate_antlr_version exec antlr_v w
       = (emit (Printed line) (probed antlr_v fs' w), Exited 1)
       /\ (line = not_found_message
           \/ exists v, banner_version out = Some v /\ line = mismatch_message v).
Proof.
  intros Hexec. rewrite validate_probe, Hexec, check_antlr_call_spec.
  destruct (banner_version out) as [v|].
  - destruct (String.prefix antlr_req v).
    + left. reflexivity.
    + right. exists (mismatch_message v). split; [reflexivity|].
      right. exists v. split; reflexivity.
  - right. exists not_found_message. split; [reflexivity|left; reflexivity].
Qed.

Lemma validate_outcomes_witness :
  validate_antlr_version (printing "antlr4: command not found") None empty_world
  = (probed None ∅ empty_world, Returned tt)
  \/ exists line,
       validate_antlr_version (printing "antlr4: command not found") None
                              empty_world
       = (emit (Printed line) (probed None ∅ empty_world), Exited 1)
       /\ (line = not_found_message
           \/ exists v, banner_version "antlr4: command not found" = Some v
                        /\ line = mismatch_message v).
Proof.
  apply (validate_outcomes (printing "antlr4: command not found") None
           empty_world "antlr4: command not found" ∅).
  reflexivity.
Defined.

(** X5: the not-found line is printed exactly for the outputs that do not
    begin with a text of the banner pattern; an output that begins with
    a banner is never reported as a missing tool. *)
Theorem validate_not_found_iff exec antlr_v w out fs' :
  exec (probe antlr_v) (fs w) = Some (out, fs') ->
  validate_antlr_version exec antlr_v w
  = (emit (Printed not_found_message) (probed antlr_v fs' w), Exited 1)
  <-> ~ Re.matches_at_start antlr_version_pattern (list_ascii_of_string out).
Proof.
  intros Hexec. rewrite validate_probe, Hexec, check_antlr_call_spec.
  rewrite <- banner_version_Some.
  destruct (banner_version out) as [v|].
  - split.
    + destruct (String.prefix antlr_req v); intros H; [discriminate|].
      exfalso. injection H as H. apply app_inv_head in H.
      unfold mismatch_message, not_found_message in H.
      injection H as H. discriminate H.
    + intros H. exfalso. apply H. eexists. reflexivity.
  - split; [|reflexivity]. intros _ [x Hx]. discriminate.
Qed.

Lemma validate_not_found_iff_witness :
  validate_antlr_version (printing "zsh: command not found: antlr4") None
                         empty_world
  = (emit (Printed not_found_message) (probed None ∅ empty_world), Exited 1)
  <-> ~ Re.matches_at_start antlr_version_pattern
          (list_ascii_of_string "zsh: command not found: antlr4").
Proof.
  apply (validate_not_found_iff (printing "zsh: command not found: antlr4")
           None empty_world "zsh: command not found: antlr4" ∅).
  reflexivity.
Defined.

(** ** More on the cleanup *)

Lemma filter_none {A : Type} (f : A -> bool) (l : list A) :
  (forall x, In x l -> f x = false) -> List.filter f l = [].
Proof.
  induction l as [|a l IH]; intros H; [reflexivity|].
  simpl. rewrite (H a (or_introl eq_refl)). apply IH.
  intros x Hx. apply H. right. exact Hx.
Qed.

(** X7: a cleanup pass that has returned is idempotent: run again on
    the world it leaves, it deletes nothing, prints nothing and
    returns. *)
Theorem remove_matching_idempotent make_relative c out pat w d :
  fs w !! out = Some d -> wf_dir d ->
  snd (remove_matching make_relative c out pat w) = Returned tt ->
  remove_matching make_relative c out pat
    (fst (remove_matching make_relative c out pat w))
  = (fst (remove_matching make_relative c out pat w), Returned tt).
Proof.
  intros Hfs Hwf Hret.
  pose proof (remove_matching_returns make_relative c out w d pat Hfs Hwf Hret)
    as Hmay.
  rewrite (remove_matching_spec make_relative c out w d pat Hfs Hwf Hmay).
  cbn [fst].
  rewrite (remove_matching_spec make_relative c out _
             (List.filter (fun ne => negb (removable pat ne)) d) pat);
    [|apply lookup_insert_eq|apply wf_dir_filter; exact Hwf|].
  - cbn [trace fs cwd]. f_equal. f_equal.
    + rewrite (filter_none (removable pat)
                 (List.filter (fun ne => negb (removable pat ne)) d));
        [apply app_nil_r|].
      intros ne Hne. apply List.filter_In in Hne. destruct Hne as [_ Hne].
      apply negb_true_iff. exact Hne.
    + rewrite insert_insert_eq. f_equal. apply filter_all.
      intros ne Hne. apply List.filter_In in Hne. tauto.
  - intros ne Hne. apply List.filter_In in Hne. apply Hmay. tauto.
Qed.

Lemma remove_matching_idempotent_witness :
  wf_dir mixed_dir
  /\ snd (remove_matching keep_path "/repo" "gen" "*.tokens"
            (set_fs (gen_fs mixed_dir) empty_world)) = Returned tt
  /\ remove_matching keep_path "/repo" "gen" "*.tokens"
       (fst (remove_matching keep_path "/repo" "gen" "*.tokens"
               (set_fs (gen_fs mixed_dir) empty_world)))
     = (fst (remove_matching keep_path "/repo" "gen" "*.tokens"
               (set_fs (gen_fs mixed_dir) empty_world)),
        Returned tt).
Proof.
  assert (Hwf : wf_dir mixed_dir) by wf_dir_by_computation.
  assert (Hret : snd (remove_matching keep_path "/repo" "gen" "*.tokens"
                        (set_fs (gen_fs mixed_dir) empty_world)) = Returned tt)
    by (vm_compute; reflexivity).
  split; [exact Hwf|]. split; [exact Hret|].
  apply (remove_matching_idempotent keep_path "/repo" "gen" "*.tokens"
           (set_fs (gen_fs mixed_dir) empty_world) mixed_dir).
  - apply lookup_singleton_eq.
  - exact Hwf.
  - exact Hret.
Defined.

(** *** Names selected by the two patterns *)







(** X10: validation and generation address the same generator: for the
    same version selector, the generator command begins with the whole
    command line of the probe, runs the same program and, like the
    probe, pins no working directory. *)
Theorem generator_extends_probe
    make_relative exec output_path files antlr_v w w' :
  exists p g more,
    spawned (trace (fst (validate_antlr_version exec antlr_v w)))
    = spawned (trace w) ++ [p]
    /\ spawned (trace (fst (generate_antlr_grammar make_relative exec
                              output_path files antlr_v w')))
       = spawned (trace w') ++ [g]
    /\ inv_cmd g = inv_cmd p /\ inv_cwd g = inv_cwd p
    /\ inv_args g = inv_args p ++ more.
Proof.
  exists (probe antlr_v),
         (generator_invocation make_relative (cwd w') output_path files antlr_v),
         (["-Dlanguage=Swift"; "-visitor"]
            ++ map (make_relative (cwd w')) files
            ++ ["-o"; make_relative (cwd w') output_path; "-Xexact-output-dir"]).
  split; [|split; [apply generate_spawned|repeat split]].
  rewrite validate_probe.
  destruct (exec (probe antlr_v) (fs w)) as [[out fs']|].
  - rewrite check_antlr_call_spec.
    destruct (banner_version out) as [v|]; [destruct (String.prefix antlr_req v)|];
      simpl; rewrite ?spawned_app; simpl; rewrite ?app_nil_r; reflexivity.
  - simpl. rewrite spawned_app. reflexivity.
Qed.

(** ** A version without a dot *)

Module Undotted.
Import Re ReFacts.

Lemma space_not_digit c : is_space c = true -> is_digit c = false.
Proof.
  intros Hs. destruct (is_digit c) eqn:Hd; [|reflexivity].
  apply Greedy.digit_not_space in Hd. congruence.
Qed.

Lemma backtrack_plus_none n r s caps :
  backtrack n r s caps = [] -> backtrack n (Plus r) s caps = [].
Proof.
  intros H. destruct n as [|n].
  - rewrite backtrack_plus_O, H. reflexivity.
  - rewrite backtrack_plus_S, H. reflexivity.
Qed.

(** No version starts at a text that does not begin with a digit. *)
Lemma backtrack_version_no_digit n s caps :
  heads_with is_digit s = false -> backtrack n version_re s caps = [].
Proof.
  intros H.
  change version_re with (Cat (Plus digits_then_dot) (Plus (Cls is_digit))).
  rewrite backtrack_cat, backtrack_plus_none; [reflexivity|].
  apply Greedy.backtrack_group_no_digit. exact H.
Qed.

(** No version starts at a single run of digits that no dot and digit
    follow. *)
Lemma backtrack_version_undotted n ds rest caps :
  is_run is_digit ds = true ->
  heads_with is_digit rest = false ->
  (forall r, rest = "."%char :: r -> heads_with is_digit r = false) ->
  (length (ds ++ rest) <= n)%nat ->
  backtrack n version_re (ds ++ rest) caps = [].
Proof.
  intros Hds Hdig Hdot Hn.
  change version_re with (Cat (Plus digits_then_dot) (Plus (Cls is_digit))).
  rewrite backtrack_cat.
  destruct (heads_with (Ascii.eqb ".") rest) eqn:Hd.
  - destruct rest as [|c r]; [discriminate|].
    unfold heads_with in Hd. apply Ascii.eqb_eq in Hd. subst c.
    specialize (Hdot r eq_refl).
    assert (E : dotted [ds] ++ r = ds ++ "."%char :: r)
      by apply (Greedy.dotted_snoc [] ds r).
    rewrite <- E in Hn |- *.
    rewrite Greedy.backtrack_groups; [| |intros; apply Greedy.backtrack_group_no_digit; exact Hdot|exact Hn].
    + simpl. rewrite Greedy.backtrack_plus_cls_none by exact Hdot. reflexivity.
    + simpl. rewrite Hds. reflexivity.
  - rewrite backtrack_plus_none; [reflexivity|].
    apply Greedy.backtrack_group_no_dot; assumption.
Qed.

Lemma backtrack_lit_space n cs s caps :
  heads_with is_space cs = false -> heads_with is_space s = true ->
  cs <> [] ->
  backtrack n (lit cs) s caps = [].
Proof.
  intros Hcs Hs Hne. destruct cs as [|c cs]; [congruence|].
  destruct s as [|c' u]; [discriminate|]. simpl in Hcs, Hs.
  simpl lit. rewrite backtrack_cat, backtrack_chr.
  destruct (Ascii.eqb_spec c c') as [->|_]; [congruence|reflexivity].
Qed.

(** The banner pattern does not match when the version has no dot. *)
Lemma re_match_undotted ws1 ws2 ds rest :
  is_run is_space ws1 = true -> is_run is_space ws2 = true ->
  is_run is_digit ds = true ->
  heads_with is_digit rest = false ->
  (forall r, rest = "."%char :: r -> heads_with is_digit r = false) ->
  re_match antlr_version_pattern
    (list_ascii_of_string "ANTLR Parser Generator" ++ ws1
       ++ list_ascii_of_string "Version" ++ ws2 ++ ds ++ rest)
  = None.
Proof.
  intros H1 H2 Hds Hdig Hdot. unfold re_match.
  set (A := list_ascii_of_string "ANTLR Parser Generator").
  set (V := list_ascii_of_string "Version").
  set (n := length (A ++ ws1 ++ V ++ ws2 ++ ds ++ rest)).
  assert (Hn1 : (length (ws1 ++ V ++ ws2 ++ ds ++ rest) <= n)%nat).
  { subst n. rewrite (length_app A). lia. }
  assert (Hn2 : (length (ws2 ++ ds ++ rest) <= n)%nat).
  { subst n. rewrite (length_app A), (length_app ws1), (length_app V). lia. }
  assert (Hn3 : (length (ds ++ rest) <= n)%nat).
  { rewrite (length_app ws2) in Hn2. lia. }
  assert (Hhead : heads_with is_space (ds ++ rest) = false).
  { destruct ds as [|c ds]; [discriminate|]. simpl in *.
    apply andb_true_iff in Hds. apply Greedy.digit_not_space. tauto. }
  change antlr_version_pattern
    with (Cat (lit A) (Cat (Plus (Cls is_space)) (Cat (lit V)
           (Cat (Plus (Cls is_space)) (Grp 1 version_re))))).
  rewrite backtrack_cat, Greedy.backtrack_lit. cbn [flat_map fst snd].
  rewrite app_nil_r, backtrack_cat.
  destruct (Greedy.backtrack_run_head is_space n ws1 (V ++ ws2 ++ ds ++ rest) []
              H1 eq_refl Hn1) as (tl1 & -> & Htl1).
  cbn [flat_map fst snd].
  rewrite (Greedy.flat_map_nil _ tl1).
  2:{ intros th Hth. destruct (Htl1 th Hth) as [_ Hsp].
      rewrite backtrack_cat, backtrack_lit_space;
        [reflexivity|reflexivity|exact Hsp|discriminate]. }
  rewrite app_nil_r, backtrack_cat, Greedy.backtrack_lit.
  cbn [flat_map fst snd]. rewrite app_nil_r, backtrack_cat.
  destruct (Greedy.backtrack_run_head is_space n ws2 (ds ++ rest) []
              H2 Hhead Hn2) as (tl2 & -> & Htl2).
  cbn [flat_map fst snd].
  rewrite (Greedy.flat_map_nil _ tl2).
  2:{ intros th Hth. destruct (Htl2 th Hth) as [_ Hsp].
      rewrite backtrack_grp, backtrack_version_no_digit; [reflexivity|].
      destruct (snd th) as [|c u]; [reflexivity|]. simpl in *.
      apply space_not_digit. exact Hsp. }
  rewrite backtrack_grp, backtrack_version_undotted by assumption.
  reflexivity.
Qed.

End Undotted.

(** X6: a banner whose version is a single number, with no dot and digit
    after it, is not recognised: [validate_antlr_version] prints the
    not-found line and exits with status 1, although the generator
    answered. *)
Theorem validate_undotted_version exec antlr_v w ws1 ws2 ds rest fs' :
  exec (probe antlr_v) (fs w) = Some (banner ws1 ws2 ds rest, fs') ->
  blank ws1 = true -> blank ws2 = true ->
  is_run Re.is_digit (list_ascii_of_string ds) = true ->
  clean_cut rest = true ->
  validate_antlr_version exec antlr_v w
  = (emit (Printed "Antlr4 not found! Please install Antlr4 before proceeding: https://antlr.org")
          (probed antlr_v fs' w),
     Exited 1).
Proof.
  intros Hexec H1 H2 Hds Hrest. apply clean_cut_list in Hrest.
  destruct Hrest as [Hdig Hdot].
  rewrite validate_probe, Hexec, check_antlr_call_spec.
  unfold banner_version. rewrite list_of_banner.
  rewrite (Undotted.re_match_undotted _ _ _ _ H1 H2 Hds Hdig Hdot).
  reflexivity.
Qed.

Lemma validate_undotted_version_witness :
  validate_antlr_version
    (printing (banner " " " " "5" " (experimental)")) None empty_world
  = (emit (Printed not_found_message) (probed None ∅ empty_world), Exited 1).
Proof.
  apply (validate_undotted_version _ _ _ " " " " "5" " (experimental)");
    reflexivity.
Defined.
